(** * flip-clock: the tick pipeline, settings and timezone state

    A shallow embedding of [src/js/clock.js], [src/js/renderer.js],
    [src/js/settings.js], [src/js/timezone.js] and the clock driver of
    [src/js/main.js], followed by the properties proved about them.

    Conventions.  A JavaScript string is a [string]; an instant is the
    time value of a [Date] in milliseconds since the epoch, an integer
    of [Z]; a statement that may throw evaluates to a [Completion].
    Module-level [let] variables become fields of an explicit state
    record that every function takes and returns. *)

From Stdlib Require Import ZArith String Ascii List Lia DecimalString.
From stdpp Require Import base gmap strings list functions.

Open Scope string_scope.

(** ** The language runtime *)

Module JS.

Inductive Error : Type :=
| RangeError
| TypeError
| SyntaxError
| SecurityError.

(** The outcome of evaluating code that can throw. *)
Inductive Completion (A : Type) : Type :=
| Normal (a : A)
| Throw (e : Error).
Arguments Normal {A} a.
Arguments Throw {A} e.

Definition bind {A B} (c : Completion A) (k : A -> Completion B) : Completion B :=
  match c with
  | Normal a => k a
  | Throw e => Throw e
  end.

(** [try { body } catch (error) { handler }] *)
Definition try_catch {A} (body : Completion A) (handler : Error -> Completion A)
  : Completion A :=
  match body with
  | Normal a => Normal a
  | Throw e => handler e
  end.

(** [s[i]] on a string: the one-unit string at index [i], or
    [undefined] (here [None]) past the end. *)
Definition index (s : string) (i : nat) : option string :=
  match String.get i s with
  | Some c => Some (String c EmptyString)
  | None => None
  end.

(** [x || d] where [x] is a string or [undefined]: the empty string and
    [undefined] are the falsy ones. *)
Definition or_else (x : option string) (d : string) : string :=
  match x with
  | Some (String c s) => String c s
  | Some EmptyString => d
  | None => d
  end.

(** [String(n)] for an integral number. *)
Definition String_of (n : Z) : string :=
  NilZero.string_of_int (Z.to_int n).

Fixpoint repeat_char (c : ascii) (n : nat) : string :=
  match n with
  | O => EmptyString
  | S k => String c (repeat_char c k)
  end.

(** [s.padStart(target, c)] for a one-unit pad string [c]. *)
Definition padStart (target : nat) (c : ascii) (s : string) : string :=
  repeat_char c (target - String.length s) ++ s.

(** A [Date] object holds a time value, or NaN when it is an
    Invalid Date. *)
Definition Date : Type := option Z.

(** ECMAScript's HourFromTime, MinFromTime and SecFromTime, on a time
    value already shifted to the zone it is read in. *)
Definition HourFromTime (t : Z) : Z := (t / 3600000) mod 24.
Definition MinFromTime (t : Z) : Z := (t / 60000) mod 60.
Definition SecFromTime (t : Z) : Z := (t / 1000) mod 60.

End JS.

Import JS.

(** ** clock.js *)

Module Clock.

(** The [type] of an entry of the array [formatToParts] returns;
    [literal] stands for every type the code passes over. *)
Inductive PartType : Type :=
| hour | minute | second | dayPeriod | literal.

(** One entry of that array. *)

Record Part : Type := mkPart { type : PartType; value : string }.

(** What [getTimeParts] uses of its environment: the constructor
    [new Intl.DateTimeFormat('en-US', {timeZone, hour: '2-digit',
    minute: '2-digit', second: '2-digit', hour12})], whose result
    answers [formatToParts(date)], either of which may throw; and the
    system clock with the local zone, read by [new Date()],
    [getHours()], [getMinutes()] and [getSeconds()]. *)
Record Runtime : Type := mkRuntime {
  DateTimeFormat : string -> bool -> Completion (Date -> Completion (list Part));
  clockNow : Z;
  localOffset : Z -> Z
}.

Record Options : Type := mkOptions { timezone : string; is12h : bool }.

(** The object [getTimeParts] returns. *)
Record TimeParts : Type := mkTimeParts {
  h1 : string; h2 : string;
  m1 : string; m2 : string;
  s1 : string; s2 : string;
  ampm : string
}.

(** The local object [timeParts] of the try block; a field never
    assigned is [undefined]. *)
Record Collected : Type := mkCollected {
  c_hour : option string;
  c_minute : option string;
  c_second : option string;
  c_ampm : option string
}.

Definition no_parts : Collected := mkCollected None None None None.

(** The body of the [parts.forEach] callback. *)
Definition collect (acc : Collected) (part : Part) : Collected :=
  match type part with
  | hour => mkCollected (Some (value part)) (c_minute acc) (c_second acc) (c_ampm acc)
  | minute => mkCollected (c_hour acc) (Some (value part)) (c_second acc) (c_ampm acc)
  | second => mkCollected (c_hour acc) (c_minute acc) (Some (value part)) (c_ampm acc)
  | dayPeriod => mkCollected (c_hour acc) (c_minute acc) (c_second acc) (Some (value part))
  | literal => acc
  end.

(** Lines 25-48: from the parts to the returned object. *)
Definition digits_of_parts (parts : list Part) : TimeParts :=
  let timeParts := fold_left collect parts no_parts in
  let hour := or_else (c_hour timeParts) "00" in
  let minute := or_else (c_minute timeParts) "00" in
  let second := or_else (c_second timeParts) "00" in
  {| h1 := or_else (index hour 0) "0";
     h2 := or_else (index hour 1) "0";
     m1 := or_else (index minute 0) "0";
     m2 := or_else (index minute 1) "0";
     s1 := or_else (index second 0) "0";
     s2 := or_else (index second 1) "0";
     ampm := or_else (c_ampm timeParts) "" |}.

(** The try block, lines 14-48. *)
Definition getTimeParts_try (rt : Runtime) (date : Date) (o : Options)
  : Completion TimeParts :=
  bind (DateTimeFormat rt (timezone o) (is12h o)) (fun formatter =>
  bind (formatter date) (fun parts =>
  Normal (digits_of_parts parts))).

(** Lines 56-60: the hour and the period label of the catch block. *)
Definition fallback_ampm (is12h : bool) (hours : Z) : string :=
  if is12h then (if 12 <=? hours then "PM" else "AM")%Z else "".

Definition fallback_hours (is12h : bool) (hours : Z) : Z :=
  if is12h then
    let hours := (hours mod 12)%Z in
    if (hours =? 0)%Z then 12%Z else hours
  else hours.

(** The catch block, lines 49-75.  [h[0]] of a string shorter than
    that is [undefined]; the record keeps strings, so the absent case
    is written as the empty string, which [padStart] rules out. *)
Definition getTimeParts_catch (rt : Runtime) (o : Options) : TimeParts :=
  let now := (clockNow rt + localOffset rt (clockNow rt))%Z in
  let hours := HourFromTime now in
  let ampm := fallback_ampm (is12h o) hours in
  let hours := fallback_hours (is12h o) hours in
  let h := padStart 2 "0" (String_of hours) in
  let m := padStart 2 "0" (String_of (MinFromTime now)) in
  let s := padStart 2 "0" (String_of (SecFromTime now)) in
  let at_ (x : string) (i : nat) := default "" (index x i) in
  {| h1 := at_ h 0; h2 := at_ h 1;
     m1 := at_ m 0; m2 := at_ m 1;
     s1 := at_ s 0; s2 := at_ s 1;
     ampm := ampm |}.

Definition getTimeParts (rt : Runtime) (date : Date) (o : Options)
  : Completion TimeParts :=
  try_catch (getTimeParts_try rt date o)
            (fun _ => Normal (getTimeParts_catch rt o)).

(** *** The en-US formatter *)

Definition two_digit (n : Z) : string := padStart 2 "0" (String_of n).

Definition hour12_of (h : Z) : Z :=
  if (h mod 12 =? 0)%Z then 12%Z else (h mod 12)%Z.

(** Modelled from the spec: the locale engine behind
    [Intl.DateTimeFormat] is the browser's and no part of the sources.
    These are the parts [formatToParts] answers for the wall-clock time
    value [t] as the spec describes them: every field padded to two
    digits; in 12-hour mode the hour in 1..12, with 0 and 12 both shown
    as "12", and the label "AM" below noon and "PM" from noon on; in
    24-hour mode the hour in 0..23 and no label. *)
Definition enUS_parts (hour12 : bool) (t : Z) : list Part :=
  let hms :=
    fun hh => [ mkPart hour hh; mkPart literal ":";
                mkPart minute (two_digit (MinFromTime t)); mkPart literal ":";
                mkPart second (two_digit (SecFromTime t)) ] in
  if hour12 then
    hms (two_digit (hour12_of (HourFromTime t)))
      ++ [ mkPart literal " ";
           mkPart dayPeriod (if (HourFromTime t <? 12)%Z then "AM" else "PM") ]
  else hms (two_digit (HourFromTime t)).

(** Modelled from the spec: the constructor of that engine and the
    method [formatToParts] of what it builds.  [zones] says which zone
    identifiers the engine knows: [None] for one it rejects with a
    RangeError, else the offset from UTC, in milliseconds, the zone has
    at each instant.  An Invalid Date is rejected with a RangeError. *)
Definition enUS_DateTimeFormat (zones : string -> option (Z -> Z))
    (tz : string) (hour12 : bool) : Completion (Date -> Completion (list Part)) :=
  match zones tz with
  | None => Throw RangeError
  | Some offset =>
      Normal (fun date =>
        match date with
        | None => Throw RangeError
        | Some t => Normal (enUS_parts hour12 (t + offset t))
        end)
  end.

Definition enUS (zones : string -> option (Z -> Z)) (now : Z) (local : Z -> Z)
  : Runtime :=
  mkRuntime (enUS_DateTimeFormat zones) now local.

(** The hour of day of instant [t] in zone [tz], when the engine knows
    the zone. *)
Definition hour_of_day (zones : string -> option (Z -> Z)) (tz : string) (t : Z)
  : option Z :=
  match zones tz with
  | Some offset => Some (HourFromTime (t + offset t))
  | None => None
  end.

(** Only UTC is known, at offset zero. *)
Definition utc_only (tz : string) : option (Z -> Z) :=
  if decide (tz = "UTC") then Some (fun _ => 0%Z) else None.

(** UTC and a zone seven hours ahead of it. *)
Definition two_zones (tz : string) : option (Z -> Z) :=
  if decide (tz = "UTC") then Some (fun _ => 0%Z)
  else if decide (tz = "Asia/Ho_Chi_Minh") then Some (fun _ => 25200000%Z)
  else None.

(** A string that is one character in '0'..'9'. *)
Definition is_digit (s : string) : bool :=
  match s with
  | String c EmptyString => (48 <=? nat_of_ascii c)%nat && (nat_of_ascii c <=? 57)%nat
  | _ => false
  end.

(** A string that is two such characters. *)
Definition is_two_digits (s : string) : bool :=
  match s with
  | String a (String b EmptyString) =>
      is_digit (String a EmptyString) && is_digit (String b EmptyString)
  | _ => false
  end.

Definition six_digits (tp : TimeParts) : Prop :=
  is_digit (h1 tp) = true /\ is_digit (h2 tp) = true /\
  is_digit (m1 tp) = true /\ is_digit (m2 tp) = true /\
  is_digit (s1 tp) = true /\ is_digit (s2 tp) = true.

(** The hour and the label the spec asks for at the wall-clock time
    value [t]. *)
Definition shown_hour (hour12 : bool) (t : Z) : Z :=
  if hour12 then hour12_of (HourFromTime t) else HourFromTime t.

Definition shown_label (hour12 : bool) (t : Z) : string :=
  if hour12 then (if (HourFromTime t <? 12)%Z then "AM" else "PM") else "".

(** The local wall-clock time value the catch block reads. *)
Definition local_time (rt : Runtime) : Z :=
  (clockNow rt + localOffset rt (clockNow rt))%Z.

End Clock.

(** ** renderer.js *)

Module Renderer.
Import Clock.

(** The six digit keys of [render] and [initClock]. *)
Inductive Key : Type := k_h1 | k_h2 | k_m1 | k_m2 | k_s1 | k_s2.

#[global] Instance Key_eq_dec : EqDecision Key.
Proof. solve_decision. Defined.

Definition keys : list Key := [k_h1; k_h2; k_m1; k_m2; k_s1; k_s2].

(** [timeParts[key]] *)
Definition field (timeParts : TimeParts) (key : Key) : string :=
  match key with
  | k_h1 => h1 timeParts | k_h2 => h2 timeParts
  | k_m1 => m1 timeParts | k_m2 => m2 timeParts
  | k_s1 => s1 timeParts | k_s2 => s2 timeParts
  end.

(** What the renderer touches of a DOM element. *)
Record Element : Type := mkElement {
  textContent : string;
  classList : gset string
}.

(** The module state: [clockElements] with the elements it refers to
    (the digit entries by key, the entry [ampm] apart),
    [previousTime], and the callbacks handed to [setTimeout] that have
    not run yet, each with the instant it is due and the element it
    closes over.  An element is named by the key it is registered
    under. *)
Record State : Type := mkState {
  clockElements : Key -> option Element;
  ampmElement : option Element;
  previousTime : string;
  timeouts : list (Z * Key)
}.

Definition initial : State :=
  mkState (fun _ => None) None "000000" [].

(** [initClock(domRoot)]: [found key] is what
    [domRoot.querySelector('[data-key=...]')] answers, [indicator]
    what [document.getElementById('ampmIndicator')] answers. *)
Definition initClock (found : Key -> option Element) (indicator : option Element)
    (st : State) : State :=
  let register (els : Key -> option Element) (key : Key) :=
    match found key with
    | Some element => <[key := Some element]> els
    | None => els
    end in
  mkState (fold_left register keys (clockElements st)) indicator
          (previousTime st) (timeouts st).

Definition flip_animation : string := "flip-animation".
Definition show : string := "show".
Definition duration : Z := 600.

(** [keys.map(key => timeParts[key]).join('')] *)
Definition currentTime (timeParts : TimeParts) : string :=
  fold_right String.append "" (map (field timeParts) keys).

(** Whether the callback of [keys.forEach] reaches the body of
    [if (newDigit !== oldDigit)] for this key and index. *)
Definition changed (st : State) (timeParts : TimeParts) (index : nat) (key : Key)
  : bool :=
  match clockElements st key with
  | None => false
  | Some _ =>
      let newDigit := field timeParts key in
      let oldDigit := JS.index (previousTime st) index in
      bool_decide (Some newDigit ≠ oldDigit)
  end.

(** The body of that [if]: new content, the class removed and added
    again, and the removal scheduled. *)
Definition flip (now : Z) (newDigit : string) (key : Key) (element : Element)
    (st : State) : State :=
  let element := mkElement newDigit (classList element ∖ {[flip_animation]}) in
  let element := mkElement (textContent element)
                           (classList element ∪ {[flip_animation]}) in
  mkState (<[key := Some element]> (clockElements st)) (ampmElement st)
          (previousTime st) (timeouts st ++ [((now + duration)%Z, key)]).

(** The callback of [keys.forEach((key, index) => ...)]. *)
Definition render_digit (now : Z) (timeParts : TimeParts) (st : State)
    (entry : nat * Key) : State :=
  let '(index, key) := entry in
  match clockElements st key with
  | None => st
  | Some element =>
      if changed st timeParts index key
      then flip now (field timeParts key) key element st
      else st
  end.

(** Lines 63-72: the AM/PM indicator. *)
Definition render_ampm (timeParts : TimeParts) (st : State) : State :=
  match ampmElement st with
  | None => st
  | Some ampmElement =>
      let updated :=
        match ampm timeParts with
        | EmptyString =>
            mkElement (textContent ampmElement) (classList ampmElement ∖ {[show]})
        | label =>
            mkElement label (classList ampmElement ∪ {[show]})
        end in
      mkState (clockElements st) (Some updated) (previousTime st) (timeouts st)
  end.

(** [render(timeParts)], called at instant [now]. *)
Definition render (now : Z) (timeParts : TimeParts) (st : State) : State :=
  let st := fold_left (render_digit now timeParts) (imap pair keys) st in
  let st := render_ampm timeParts st in
  mkState (clockElements st) (ampmElement st) (currentTime timeParts) (timeouts st).

Definition resetState (st : State) : State :=
  mkState (clockElements st) (ampmElement st) "000000" (timeouts st).

(** The positions at which [render] flips, in increasing order. *)
Definition changedPositions (st : State) (timeParts : TimeParts) : list nat :=
  map fst (filter (fun entry => changed st timeParts (fst entry) (snd entry) = true)
                  (imap pair keys)).

(** *** Timers

    The callback of [setTimeout] removes the class from the element
    it closed over.  The event loop is idealised: a callback runs at
    the instant it is due. *)
Definition expire (st : State) (key : Key) : State :=
  match clockElements st key with
  | None => st
  | Some element =>
      let element := mkElement (textContent element)
                               (classList element ∖ {[flip_animation]}) in
      mkState (<[key := Some element]> (clockElements st)) (ampmElement st)
              (previousTime st) (timeouts st)
  end.

(** Run every callback due by [now], oldest first, and forget it. *)
Definition run_timeouts (now : Z) (st : State) : State :=
  let due := filter (fun t => (t.1 <= now)%Z) (timeouts st) in
  let pending := filter (fun t => ¬ (t.1 <= now)%Z) (timeouts st) in
  let st := fold_left expire (map snd due) st in
  mkState (clockElements st) (ampmElement st) (previousTime st) pending.

(** A call of [render] at instant [now] finds the state the callbacks
    due by then have left. *)
Definition render_at (now : Z) (timeParts : TimeParts) (st : State) : State :=
  render now timeParts (run_timeouts now st).

(** Whether the element of [key] carries the animation class at
    instant [now]. *)
Definition isFlipping (key : Key) (now : Z) (st : State) : bool :=
  match clockElements (run_timeouts now st) key with
  | Some element => bool_decide (flip_animation ∈ classList element)
  | None => false
  end.

(** The index [keys.forEach] passes along with [key]. *)
Definition position (key : Key) : nat :=
  match key with
  | k_h1 => 0 | k_h2 => 1 | k_m1 => 2 | k_m2 => 3 | k_s1 => 4 | k_s2 => 5
  end.

(** The element a flip leaves behind. *)
Definition flipped (newDigit : string) (element : Element) : Element :=
  mkElement newDigit (classList element ∖ {[flip_animation]} ∪ {[flip_animation]}).

(** What [render] leaves under [key]. *)
Definition rendered (st : State) (timeParts : TimeParts) (key : Key)
  : option Element :=
  match clockElements st key with
  | Some element =>
      if changed st timeParts (position key) key
      then Some (flipped (field timeParts key) element)
      else Some element
  | None => None
  end.


(** No callback is waiting to take the class off the element of [key]. *)
Definition idle (key : Key) (st : State) : Prop :=
  Forall (fun t => t.2 ≠ key) (timeouts st).

(** The element of [key], if there is one, does not carry the class. *)
Definition off (key : Key) (st : State) : Prop :=
  forall element, clockElements st key = Some element ->
                  flip_animation ∉ classList element.

(** What the page reads: the text of the six digit elements in order. *)
Definition shown (st : State) : string :=
  fold_right String.append ""
    (map (fun key => match clockElements st key with
                     | Some element => textContent element
                     | None => ""
                     end) keys).

(** [initClock] found every digit element. *)
Definition all_mounted (st : State) : Prop :=
  ∀ key, is_Some (clockElements st key).

(** A page with the six digit elements and the indicator, nothing
    rendered yet. *)
Definition blank : Element := mkElement "0" ∅.
Definition mounted : State := initClock (fun _ => Some blank) (Some blank) initial.

Definition digits (a b c d e f : string) (label : string) : TimeParts :=
  mkTimeParts a b c d e f label.


(** *** Invariants of the renderer state *)

(** Every field [render] reads is one character. *)
Definition single_chars (timeParts : TimeParts) : Prop :=
  forall key, String.length (field timeParts key) = 1.

(** Each digit element on the page reads the character [previousTime]
    holds at its position. *)
Definition in_sync (st : State) : Prop :=
  forall key element,
    clockElements st key = Some element ->
    Some (textContent element) = JS.index (previousTime st) (position key).

(** An element that carries the animation class has a callback waiting
    to take it off. *)
Definition armed (st : State) : Prop :=
  forall key element,
    clockElements st key = Some element ->
    flip_animation ∈ classList element ->
    exists t, (t, key) ∈ timeouts st.

(** Every waiting callback is due by [t]. *)
Definition due_by (t : Z) (st : State) : Prop :=
  forall e, e ∈ timeouts st -> (e.1 <= t)%Z.

(** A run of calls of [render], each with its instant, oldest first. *)
Definition render_all (calls : list (Z * TimeParts)) (st : State) : State :=
  fold_left (fun st call => render_at call.1 call.2 st) calls st.

(** The instants of the calls never go back, starting from [T]. *)
Fixpoint chronological (T : Z) (calls : list (Z * TimeParts)) : Prop :=
  match calls with
  | [] => True
  | call :: calls => (T <= call.1)%Z /\ chronological call.1 calls
  end.

(** The instant of the last call, [T] when there is none. *)
Definition last_instant (T : Z) (calls : list (Z * TimeParts)) : Z :=
  List.last (map fst calls) T.

End Renderer.

(** ** settings.js *)

Module Settings.

(** A value [JSON.parse] can return.  A number is kept as an integer:
    the code only passes values on. *)
#[warnings="-register-all"]
Inductive JSON : Type :=
| JNull
| JBool (b : bool)
| JNumber (n : Z)
| JString (s : string)
| JArray (items : list JSON)
| JObject (members : gmap string JSON).

(** A settings object: its own enumerable properties by name. *)
Abbreviation Obj := (gmap string JSON).

(** The storage key. *)
Definition storage_key : string := "flip-clock-settings".

(** What [settings.js] uses of its environment: [localStorage.getItem]
    ([None] is [null]), [JSON.parse], and the zone
    [Intl.DateTimeFormat().resolvedOptions().timeZone] read when the
    module is loaded. *)
Record Runtime : Type := mkRuntime {
  getItem : string -> Completion (option string);
  JSON_parse : string -> Completion JSON;
  resolvedTimeZone : string
}.

Definition DEFAULTS (rt : Runtime) : Obj :=
  <["soundOn" := JBool false]>
  (<["is12h" := JBool false]>
  (<["theme" := JString "dark"]>
  (<["primary" := JString "#66a3ff"]>
  (<["timezone" := JString (resolvedTimeZone rt)]> ∅)))).

(** The index keys "0", "1", ... of an array or of a string. *)
Definition indexed {A} (f : A -> JSON) (l : list A) : Obj :=
  list_to_map (imap (fun i x => (String_of (Z.of_nat i), f x)) l).

(** The properties a spread [...v] copies: the own enumerable ones of
    [v], none for [null], a number or a boolean, the elements of an
    array and the units of a string under their indices. *)
Definition spread_of (v : JSON) : Obj :=
  match v with
  | JObject members => members
  | JArray items => indexed id items
  | JString s =>
      indexed (fun c => JString (String c EmptyString)) (list_ascii_of_string s)
  | JNull | JBool _ | JNumber _ => ∅
  end.

(** [{ ...a, ...v }]: the properties of [v] win. *)
Definition merge (a : Obj) (v : Obj) : Obj := v ∪ a.

(** [if (stored)]: [null] and the empty string are falsy. *)
Definition truthy (stored : option string) : bool :=
  match stored with
  | Some (String _ _) => true
  | _ => false
  end.

(** The try block of [loadSettings]: [Some] is the value of its
    [return], [None] leaves the block without returning. *)
Definition loadSettings_try (rt : Runtime) : Completion (option Obj) :=
  bind (getItem rt storage_key) (fun stored =>
  if truthy stored then
    bind (JSON_parse rt (default "" stored)) (fun parsed =>
    Normal (Some (merge (DEFAULTS rt) (spread_of parsed))))
  else Normal None).

Definition loadSettings (rt : Runtime) : Obj :=
  match try_catch (loadSettings_try rt) (fun _ => Normal None) with
  | Normal (Some settings) => settings
  | Normal None => merge (DEFAULTS rt) ∅
  | Throw _ => merge (DEFAULTS rt) ∅
  end.

Definition preference_keys : list string :=
  ["soundOn"; "is12h"; "theme"; "primary"; "timezone"].

(** *** Saving *)

(** [localStorage] as [settings.js] uses it: the stored items and the
    exception, if any, that a read or a write raises (access denied,
    quota exceeded). *)
Record Storage : Type := mkStorage {
  items : gmap string string;
  read_error : option Error;
  write_error : option Error
}.

Definition storage_getItem (s : Storage) (key : string) : Completion (option string) :=
  match read_error s with
  | Some e => Throw e
  | None => Normal (items s !! key)
  end.

Definition storage_setItem (s : Storage) (key value : string) : Completion Storage :=
  match write_error s with
  | Some e => Throw e
  | None => Normal (mkStorage (<[key := value]> (items s)) (read_error s) (write_error s))
  end.

(** The rest of the environment: [JSON.parse], [JSON.stringify] and the
    zone the runtime resolved. *)
Record Codec : Type := mkCodec {
  parse : string -> Completion JSON;
  stringify : JSON -> string;
  zone : string
}.

Definition runtime_on (c : Codec) (s : Storage) : Runtime :=
  mkRuntime (storage_getItem s) (parse c) (zone c).

(** The try block of [saveSettings(partial)]. *)
Definition saveSettings_try (c : Codec) (partial : Obj) (s : Storage)
  : Completion Storage :=
  let current := loadSettings (runtime_on c s) in
  let updated := merge current partial in
  storage_setItem s storage_key (stringify c (JObject updated)).

(** [saveSettings(partial)]: the catch block logs and goes on. *)
Definition saveSettings (c : Codec) (partial : Obj) (s : Storage) : Storage :=
  match saveSettings_try c partial s with
  | Normal s => s
  | Throw _ => s
  end.

(** A value that is no object. *)
Definition not_an_object (v : JSON) : Prop :=
  match v with
  | JObject _ => False
  | _ => True
  end.

(** A toy codec for examples: it keeps the theme of an object and
    nothing else. *)
Definition theme_codec : Codec :=
  mkCodec
    (fun s => Normal (JObject (<["theme" := JString s]>
                (<["soundOn" := JBool false]>
                (<["is12h" := JBool false]>
                (<["primary" := JString "#66a3ff"]>
                (<["timezone" := JString "UTC"]> ∅)))))))
    (fun v => match v with
              | JObject m => match m !! "theme" with
                             | Some (JString t) => t
                             | _ => "?"
                             end
              | _ => "?"
              end)
    "UTC".

End Settings.

(** ** timezone.js *)

Module Timezone.

(** The module variable [currentTimezone]. *)
Record State : Type := mkState { currentTimezone : string }.

Definition initial : State := mkState "UTC".

(** [setTimezone(timezoneId)].  [construct timezoneId] is the outcome
    of [new Intl.DateTimeFormat('en-US', { timeZone: timezoneId })]. *)
Definition setTimezone (construct : string -> Completion unit) (timezoneId : string)
    (st : State) : State :=
  match construct timezoneId with
  | Normal _ => mkState timezoneId
  | Throw _ => st
  end.

Definition getCurrentTimezone (st : State) : string := currentTimezone st.

(** A run of calls to [setTimezone], oldest first. *)
Definition setTimezones (construct : string -> Completion unit) (ids : list string)
    (st : State) : State :=
  fold_left (fun st id => setTimezone construct id st) ids st.

Definition accepts (construct : string -> Completion unit) (id : string) : bool :=
  match construct id with
  | Normal _ => true
  | Throw _ => false
  end.

(** The constructor of an engine that knows the zones of [zones]. *)
Definition construct_of (zones : string -> option (Z -> Z)) (id : string)
  : Completion unit :=
  match zones id with
  | Some _ => Normal tt
  | None => Throw RangeError
  end.

(** *** The catalogue and its search *)

(** An entry of the module variable [timezones]. *)
Record TimezoneInfo : Type := mkTimezone { tz_id : string; tz_label : string }.

(** The string methods of the runtime the search calls. *)
Record StringOps : Type := mkStringOps {
  toLowerCase : string -> string;
  trim : string -> string
}.

(** [s.includes(sub)] *)
Fixpoint includes (s sub : string) : bool :=
  String.prefix sub s
  || match s with
     | EmptyString => false
     | String _ rest => includes rest sub
     end.

(** The callback of [timezones.filter]. *)
Definition matches (ops : StringOps) (lowerQuery : string) (tz : TimezoneInfo) : bool :=
  includes (toLowerCase ops (tz_label tz)) lowerQuery
  || includes (toLowerCase ops (tz_id tz)) lowerQuery.

(** [searchTimezones(query)] over the catalogue [timezones]. *)
Definition searchTimezones (ops : StringOps) (timezones : list TimezoneInfo)
    (query : string) : list TimezoneInfo :=
  match trim ops query with
  | EmptyString => take 10 timezones
  | _ =>
      let lowerQuery := toLowerCase ops query in
      take 10 (filter (fun tz => matches ops lowerQuery tz = true) timezones)
  end.

(** [getTimezoneInfo(timezoneId)]: [None] is [null]. *)
Definition getTimezoneInfo (timezones : list TimezoneInfo) (timezoneId : string)
  : option TimezoneInfo :=
  List.find (fun tz => bool_decide (tz_id tz = timezoneId)) timezones.

(** *** The picker *)

(** A child of the dropdown with class [timezone-option]: its text, its
    [dataset.timezone] ([None] when it has none) and whether it carries
    the class [selected]. *)
Record OptionEl : Type := mkOption {
  opt_text : string;
  opt_timezone : option string;
  opt_selected : bool
}.

(** The search box, the dropdown and the variable [selectedIndex] of
    [setupTimezonePicker]. *)
Record Picker : Type := mkPicker {
  input_value : string;
  options : list OptionEl;
  dropdown_show : bool;
  selectedIndex : Z
}.

(** [renderDropdown(timezones, dropdown, onSelect)] *)
Definition renderDropdown (results : list TimezoneInfo) (p : Picker) : Picker :=
  let children :=
    match results with
    | [] => [mkOption "No timezones found" None false]
    | _ => map (fun tz => mkOption (tz_label tz) (Some (tz_id tz)) false) results
    end in
  mkPicker (input_value p) children true (selectedIndex p).

(** [updateSelection(options, selectedIndex)] *)
Definition updateSelection (selectedIndex : Z) (opts : list OptionEl) : list OptionEl :=
  imap (fun index option =>
          mkOption (opt_text option) (opt_timezone option)
                   (bool_decide (Z.of_nat index = selectedIndex))) opts.

(** [options[selectedIndex]] *)
Definition option_at (opts : list OptionEl) (selectedIndex : Z) : option OptionEl :=
  if (selectedIndex <? 0)%Z then None else opts !! Z.to_nat selectedIndex.

(** [selectTimezone] as far as the picker goes: the text put in the
    search box, the dropdown hidden.  [None] is an [undefined]
    identifier, which the box shows as the text "undefined". *)
Definition selectTimezone_box (timezones : list TimezoneInfo)
    (timezoneId : option string) (p : Picker) : Picker :=
  let value :=
    match timezoneId with
    | Some id =>
        match getTimezoneInfo timezones id with
        | Some timezoneInfo => tz_label timezoneInfo
        | None => id
        end
    | None => "undefined"
    end in
  mkPicker value (options p) false (selectedIndex p).

Inductive Key : Type := ArrowDown | ArrowUp | Enter | Escape | OtherKey.

(** The [keydown] listener.  The second component is the identifier
    handed on to [setTimezone] and [onSelect] when [selectTimezone] is
    called: [None] when it is not called, [Some None] when it is called
    with [undefined]. *)
Definition keydown (timezones : list TimezoneInfo) (key : Key) (p : Picker)
  : Picker * option (option string) :=
  match key with
  | ArrowDown =>
      let selectedIndex :=
        Z.min (selectedIndex p + 1) (Z.of_nat (length (options p)) - 1) in
      (mkPicker (input_value p) (updateSelection selectedIndex (options p))
                (dropdown_show p) selectedIndex, None)
  | ArrowUp =>
      let selectedIndex := Z.max (selectedIndex p - 1) (-1) in
      (mkPicker (input_value p) (updateSelection selectedIndex (options p))
                (dropdown_show p) selectedIndex, None)
  | Enter =>
      if (0 <=? selectedIndex p)%Z then
        match option_at (options p) (selectedIndex p) with
        | Some option =>
            (selectTimezone_box timezones (opt_timezone option) p,
             Some (opt_timezone option))
        | None => (p, None)
        end
      else (p, None)
  | Escape => (mkPicker (input_value p) (options p) false (-1), None)
  | OtherKey => (p, None)
  end.

(** The [input] listener, the box now holding [query]. *)
Definition on_input (ops : StringOps) (timezones : list TimezoneInfo)
    (query : string) (p : Picker) : Picker :=
  let p := mkPicker query (options p) (dropdown_show p) (selectedIndex p) in
  let p := renderDropdown (searchTimezones ops timezones query) p in
  mkPicker (input_value p) (options p) (dropdown_show p) (-1).

(** The [focus] listener. *)
Definition on_focus (ops : StringOps) (timezones : list TimezoneInfo)
    (p : Picker) : Picker :=
  renderDropdown (searchTimezones ops timezones (input_value p)) p.

(** What the user does to the search box. *)
Inductive PickerEvent : Type :=
| Typed (query : string)
| Pressed (key : Key).

Definition picker_step (ops : StringOps) (timezones : list TimezoneInfo)
    (p : Picker) (ev : PickerEvent) : Picker :=
  match ev with
  | Typed query => on_input ops timezones query p
  | Pressed key => (keydown timezones key p).1
  end.

(** The highlight is on an option or nowhere. *)
Definition highlight_in_range (p : Picker) : Prop :=
  (-1 <= selectedIndex p < Z.of_nat (length (options p)))%Z.

(** The key pressed [n] times in a row. *)
Fixpoint press (timezones : list TimezoneInfo) (key : Key) (n : nat) (p : Picker)
  : Picker :=
  match n with
  | O => p
  | S n => (keydown timezones key (press timezones key n p)).1
  end.

(** The picker before anything was typed. *)
Definition empty_picker : Picker := mkPicker "" [] false (-1).

(** ASCII stand-ins for the string methods, for examples. *)
Definition ascii_lower (c : ascii) : ascii :=
  let n := nat_of_ascii c in
  if (65 <=? n)%nat && (n <=? 90)%nat then ascii_of_nat (n + 32) else c.

Fixpoint map_string (f : ascii -> ascii) (s : string) : string :=
  match s with
  | EmptyString => EmptyString
  | String c rest => String (f c) (map_string f rest)
  end.

Fixpoint drop_blanks (s : string) : string :=
  match s with
  | String " " rest => drop_blanks rest
  | _ => s
  end.

Definition ascii_ops : StringOps := mkStringOps (map_string ascii_lower) drop_blanks.

(** The catalogue [initTimezones] falls back to. *)
Definition fallback_timezones : list TimezoneInfo :=
  [ mkTimezone "UTC" "UTC (Coordinated Universal Time)";
    mkTimezone "America/New_York" "New York (Eastern Time)";
    mkTimezone "America/Chicago" "Chicago (Central Time)";
    mkTimezone "America/Denver" "Denver (Mountain Time)";
    mkTimezone "America/Los_Angeles" "Los Angeles (Pacific Time)";
    mkTimezone "Europe/London" "London (GMT/BST)";
    mkTimezone "Europe/Paris" "Paris (CET/CEST)";
    mkTimezone "Asia/Tokyo" "Tokyo (JST)";
    mkTimezone "Asia/Shanghai" "Shanghai (CST)";
    mkTimezone "Asia/Ho_Chi_Minh" "Ho Chi Minh City (ICT)" ].

End Timezone.

(** ** main.js: the clock driver *)

Module Main.
Import Clock.

(** The module state of the application: [currentSettings] and
    [clockInterval] of [main.js], the state of [renderer.js] and of
    [timezone.js], and the number of calls made to [playTick], which
    catches whatever it throws. *)
Record App : Type := mkApp {
  currentSettings : Settings.Obj;
  clockInterval : option nat;
  renderer : Renderer.State;
  zone : Timezone.State;
  tickCalls : nat
}.

(** Code that reads and writes the module state and may throw: the
    state it leaves is kept when it throws. *)
Definition M (A : Type) : Type := App -> Completion A * App.

Definition ret {A} (a : A) : M A := fun app => (Normal a, app).

Definition and_then {A B} (m : M A) (k : A -> M B) : M B :=
  fun app =>
    match m app with
    | (Normal a, app) => k a app
    | (Throw e, app) => (Throw e, app)
    end.

Definition lift {A} (c : Completion A) : M A := fun app => (c, app).
Definition gets {A} (f : App -> A) : M A := fun app => (Normal (f app), app).
Definition modify (f : App -> App) : M unit := fun app => (Normal tt, f app).

Notation "x <- m ;; k" := (and_then m (fun x => k))
  (at level 100, m at next level, right associativity).
Notation "m ;;; k" := (and_then m (fun _ => k))
  (at level 100, right associativity).

(** ToBoolean of a property read off a settings object. *)
Definition to_boolean (v : option Settings.JSON) : bool :=
  match v with
  | None | Some Settings.JNull => false
  | Some (Settings.JBool b) => b
  | Some (Settings.JNumber n) => negb (n =? 0)%Z
  | Some (Settings.JString s) => Settings.truthy (Some s)
  | Some (Settings.JArray _) | Some (Settings.JObject _) => true
  end.

Definition set_renderer (r : Renderer.State) (app : App) : App :=
  mkApp (currentSettings app) (clockInterval app) r (zone app) (tickCalls app).

Definition playTick (app : App) : App :=
  mkApp (currentSettings app) (clockInterval app) (renderer app) (zone app)
        (S (tickCalls app)).

Definition set_clockInterval (id : nat) (app : App) : App :=
  mkApp (currentSettings app) (Some id) (renderer app) (zone app) (tickCalls app).

(** The options [updateClock] passes to the formatter.  [is12h] is
    read as the boolean it stands for: [loadSettings] puts the key in
    every settings object and the format button writes booleans.  For
    settings without the key the code passes [undefined], which this
    definition does not follow. *)
Definition options (app : App) : Options :=
  mkOptions (Timezone.getCurrentTimezone (zone app))
            (to_boolean (currentSettings app !! "is12h")).

(** [updateClock()], run at instant [now].  [format] is the binding
    [getTimeParts] it calls. *)
Definition updateClock (format : Date -> Options -> Completion TimeParts)
    (now : Z) : M unit :=
  o <- gets options ;;
  timeParts <- lift (format (Some now) o) ;;
  modify (fun app =>
    set_renderer (Renderer.render_at now timeParts (renderer app)) app) ;;;
  soundOn <- gets (fun app => to_boolean (currentSettings app !! "soundOn")) ;;
  if soundOn then modify playTick else ret tt.

(** [startClock()]; [id] is what [setInterval] answers. *)
Definition startClock (format : Date -> Options -> Completion TimeParts)
    (now : Z) (id : nat) : M unit :=
  updateClock format now ;;;
  modify (set_clockInterval id).

(** One firing of the interval [startClock] registered.  The event
    loop runs the callback; an exception leaving it is reported to the
    ['error'] listener, which logs it, and the interval stays
    registered. *)
Definition interval_tick (format : Date -> Options -> Completion TimeParts)
    (now : Z) (app : App) : App :=
  match clockInterval app with
  | Some _ => snd (updateClock format now app)
  | None => app
  end.

(** The ['visibilitychange'] listener; [hidden] is [document.hidden]. *)
Definition on_visibilitychange (format : Date -> Options -> Completion TimeParts)
    (hidden : bool) (now : Z) : M unit :=
  if hidden then ret tt else updateClock format now.

Definition set_timezone_setting (timezoneId : string) (app : App) : App :=
  mkApp (<["timezone" := Settings.JString timezoneId]> (currentSettings app))
        (clockInterval app) (renderer app) (zone app) (tickCalls app).

(** [handleTimezoneChange(timezoneId)], run at instant [now].  The call
    of [saveSettings] writes to storage only and catches what it
    throws. *)
Definition handleTimezoneChange (format : Date -> Options -> Completion TimeParts)
    (timezoneId : string) (now : Z) : M unit :=
  modify (set_timezone_setting timezoneId) ;;;
  modify (fun app => set_renderer (Renderer.resetState (renderer app)) app) ;;;
  updateClock format now.

(** [selectTimezone] of [timezone.js] with [handleTimezoneChange] as its
    [onSelect]; the search box and the dropdown are left out. *)
Definition selectTimezone (construct : string -> Completion unit)
    (format : Date -> Options -> Completion TimeParts)
    (timezoneId : string) (now : Z) : M unit :=
  modify (fun app =>
    mkApp (currentSettings app) (clockInterval app) (renderer app)
          (Timezone.setTimezone construct timezoneId (zone app)) (tickCalls app)) ;;;
  handleTimezoneChange format timezoneId now.

(** The application as [main.js] wires it. *)
Definition tick (rt : Clock.Runtime) (now : Z) (app : App) : App :=
  interval_tick (getTimeParts rt) now app.

(** [handleTimeFormatToggle(event)], run at instant [now].  The call of
    [saveSettings] writes to storage only and catches what it throws.
    The statements on [event.target] are kept as their outcome:
    [buttonOk] is false when they throw, as
    [event.target.querySelector('.label')] being [null] makes them. *)
Definition handleTimeFormatToggle (format : Date -> Options -> Completion TimeParts)
    (buttonOk : bool) (now : Z) : M unit :=
  modify (fun app =>
    let newFormat := negb (to_boolean (currentSettings app !! "is12h")) in
    mkApp (<["is12h" := Settings.JBool newFormat]> (currentSettings app))
          (clockInterval app) (renderer app) (zone app) (tickCalls app)) ;;;
  lift (if buttonOk then Normal tt else Throw TypeError) ;;;
  updateClock format now.

(** A run of interval ticks, oldest first.  The run has one runtime:
    its [clockNow], which only the catch block of [getTimeParts] reads,
    is that of one instant. *)
Definition tick_all (rt : Clock.Runtime) (instants : list Z) (app : App) : App :=
  fold_left (fun app t => tick rt t app) instants app.

Definition stuck : Date -> Options -> Completion TimeParts :=
  fun _ _ => Throw TypeError.

(** The application once [initApp] is through on a page with nothing
    stored: the default settings, the six digit elements, the interval
    registered. *)
Definition running : App :=
  mkApp (Settings.DEFAULTS
           (Settings.mkRuntime (fun _ => Normal None) (fun _ => Throw TypeError) "UTC"))
        (Some 1) Renderer.mounted Timezone.initial 0.

End Main.

(** ** theme.js *)

Module Theme.

Definition validThemes : list string := ["dark"; "light"; "neon"].

(** The template string [`theme-${theme}`]. *)
Definition theme_class (theme : string) : string := "theme-" ++ theme.

(** What [theme.js] touches of the document: the classes of [body], the
    custom properties set on the root element's style, and the
    [content] of the [meta] element named [theme-color], [None] when
    the page has no such element. *)
Record Page : Type := mkPage {
  body_classes : gset string;
  root_style : gmap string string;
  meta_theme_color : option string
}.

(** The table [themeColors] of [updateMetaThemeColor]. *)
Definition themeColors : gmap string string :=
  <["dark" := "#0b0f14"]> (<["light" := "#f8fafc"]> (<["neon" := "#000814"]> ∅)).

(** [updateMetaThemeColor(themeName)] *)
Definition updateMetaThemeColor (themeName : string) (page : Page) : Page :=
  match meta_theme_color page with
  | Some _ =>
      mkPage (body_classes page) (root_style page)
             (Some (default "#0b0f14" (themeColors !! themeName)))
  | None => page
  end.

(** The theme [applyTheme] settles on. *)
Definition effective_theme (themeName : string) : string :=
  if bool_decide (themeName ∈ validThemes) then themeName else "dark".

(** [applyTheme(themeName)] *)
Definition applyTheme (themeName : string) (page : Page) : Page :=
  let themeName := effective_theme themeName in
  let classes :=
    fold_left (fun classes theme => classes ∖ {[theme_class theme]})
              validThemes (body_classes page) in
  let classes := classes ∪ {[theme_class themeName]} in
  updateMetaThemeColor themeName
    (mkPage classes (root_style page) (meta_theme_color page)).

(** [getCurrentTheme()] *)
Definition getCurrentTheme (page : Page) : string :=
  match List.find (fun theme => bool_decide (theme_class theme ∈ body_classes page))
                  validThemes with
  | Some theme => theme
  | None => "dark"
  end.

(** A character of the class [[A-Fa-f0-9]]. *)
Definition is_hex (c : ascii) : bool :=
  let n := nat_of_ascii c in
  (((48 <=? n) && (n <=? 57)) || ((65 <=? n) && (n <=? 70))
   || ((97 <=? n) && (n <=? 102)))%nat.

(** [isValidHexColor(hex)]: the test of
    [/^#([A-Fa-f0-9]{6}|[A-Fa-f0-9]{3})$/]. *)
Definition isValidHexColor (hex : string) : bool :=
  match hex with
  | String "#" rest =>
      ((String.length rest =? 6)%nat || (String.length rest =? 3)%nat)
      && forallb is_hex (list_ascii_of_string rest)
  | _ => false
  end.

Definition hex_value (c : ascii) : option Z :=
  let n := nat_of_ascii c in
  if ((48 <=? n) && (n <=? 57))%nat then Some (Z.of_nat n - 48)%Z
  else if ((65 <=? n) && (n <=? 70))%nat then Some (Z.of_nat n - 55)%Z
  else if ((97 <=? n) && (n <=? 102))%nat then Some (Z.of_nat n - 87)%Z
  else None.

Fixpoint hex_digits (acc : Z) (s : string) : Z :=
  match s with
  | EmptyString => acc
  | String c rest =>
      match hex_value c with
      | Some d => hex_digits (16 * acc + d)%Z rest
      | None => acc
      end
  end.

(** [parseInt(s, 16)] for a string with no leading blank, sign or [0x],
    as the slices of a valid colour are: the value of the longest run
    of hexadecimal digits at its start, [None] (NaN) when it starts
    with none. *)
Definition parseInt16 (s : string) : option Z :=
  match s with
  | EmptyString => None
  | String c _ =>
      match hex_value c with
      | Some _ => Some (hex_digits 0 s)
      | None => None
      end
  end.

(** The byte two hexadecimal digits write, the high one first. *)
Definition byte_of (hi lo : ascii) : option Z :=
  match hex_value hi, hex_value lo with
  | Some h, Some l => Some (16 * h + l)%Z
  | _, _ => None
  end.

(** [s.slice(from, to)] for [0 <= from <= to]. *)
Definition slice (from to : nat) (s : string) : string :=
  substring from (to - from) s.

(** [getContrastColor(hexColor)].  The luminance is computed in
    floating point; [brighter r g b] is the outcome of
    [(0.299 * r + 0.587 * g + 0.114 * b) / 255 > 0.5] on three numbers.
    With a NaN among them the comparison is false. *)
Definition getContrastColor (brighter : Z -> Z -> Z -> bool) (hexColor : string)
  : string :=
  let r := parseInt16 (slice 1 3 hexColor) in
  let g := parseInt16 (slice 3 5 hexColor) in
  let b := parseInt16 (slice 5 7 hexColor) in
  let bright :=
    match r, g, b with
    | Some r, Some g, Some b => brighter r g b
    | _, _, _ => false
    end in
  if bright then "#000000" else "#ffffff".

(** [applyPrimary(hexColor)] *)
Definition applyPrimary (brighter : Z -> Z -> Z -> bool) (hexColor : string)
    (page : Page) : Page :=
  if isValidHexColor hexColor then
    let style := <["--primary" := hexColor]> (root_style page) in
    let primaryTextColor := getContrastColor brighter hexColor in
    let style := <["--primary-text" := primaryTextColor]> style in
    mkPage (body_classes page) style (meta_theme_color page)
  else page.

(** The luminance test in exact arithmetic, for examples. *)
Definition exact_brighter (r g b : Z) : bool :=
  (127500 <? 299 * r + 587 * g + 114 * b)%Z.

Definition plain_page : Page := mkPage ∅ ∅ (Some "").

End Theme.

(** ** sound.js *)

Module Sound.

(** The module variables: whether [audioContext] and [tickBuffer] are
    set, [soundEnabled], [userHasInteracted]; besides them, whether a
    call of [initSound] is waiting for its download, the number of
    calls of [initSound] and the number of ticks started. *)
Record State : Type := mkState {
  audioContext : bool;
  tickBuffer : bool;
  soundEnabled : bool;
  userHasInteracted : bool;
  loading : bool;
  initCalls : nat;
  played : nat
}.

Definition initial : State := mkState false false false false false 0 0.

(** [initSound()] up to its first [await]: the context is built, unless
    its constructor throws ([contextOk] false), and the download
    starts. *)
Definition initSound_begin (contextOk : bool) (st : State) : State :=
  if contextOk
  then mkState true (tickBuffer st) (soundEnabled st) (userHasInteracted st)
               true (S (initCalls st)) (played st)
  else mkState (audioContext st) (tickBuffer st) (soundEnabled st)
               (userHasInteracted st) (loading st) (S (initCalls st)) (played st).

(** The rest of [initSound()], when the download and the decoding
    settle: [tickBuffer] is set when they succeeded ([decoded]), and
    nothing is when one of them failed. *)
Definition initSound_settle (decoded : bool) (st : State) : State :=
  if loading st
  then mkState (audioContext st) (tickBuffer st || decoded) (soundEnabled st)
               (userHasInteracted st) false (initCalls st) (played st)
  else st.

(** [toggleSound(enabled)] *)
Definition toggleSound (contextOk : bool) (enabled : bool) (st : State) : State :=
  let st := mkState (audioContext st) (tickBuffer st) enabled (userHasInteracted st)
                    (loading st) (initCalls st) (played st) in
  if enabled && negb (userHasInteracted st)
  then initSound_begin contextOk
         (mkState (audioContext st) (tickBuffer st) (soundEnabled st) true
                  (loading st) (initCalls st) (played st))
  else st.

(** [playTick()]: [hidden] is [document.hidden], [audioOk] whether the
    calls on the audio context go through without throwing. *)
Definition playTick (hidden audioOk : bool) (st : State) : State :=
  if negb (soundEnabled st) || negb (audioContext st) || negb (tickBuffer st)
  then st
  else if hidden then st
  else if audioOk
       then mkState (audioContext st) (tickBuffer st) (soundEnabled st)
                    (userHasInteracted st) (loading st) (initCalls st) (S (played st))
       else st.

Definition isSoundEnabled (st : State) : bool := soundEnabled st.

(** What happens to the module over time. *)
Inductive Event : Type :=
| Toggle (enabled contextOk : bool)
| Settled (decoded : bool)
| Tick (hidden audioOk : bool).

Definition step (st : State) (ev : Event) : State :=
  match ev with
  | Toggle enabled contextOk => toggleSound contextOk enabled st
  | Settled decoded => initSound_settle decoded st
  | Tick hidden audioOk => playTick hidden audioOk st
  end.

Definition run (events : list Event) (st : State) : State :=
  fold_left step events st.

(** Before the first enabling toggle nothing has been set up; after
    it, [initSound] has been called once. *)
Definition set_up_once (st : State) : Prop :=
  if userHasInteracted st
  then initCalls st = 1
  else initCalls st = 0 /\ audioContext st = false /\ tickBuffer st = false
       /\ loading st = false /\ played st = 0.

(** *** The sound setting of [main.js]

    [currentSettings.soundOn] beside the module state. *)
Record Setting : Type := mkSetting { soundOn : bool; sound : State }.

(** [handleSoundToggle(event)].  The call of [saveSettings] writes to
    storage only and catches what it throws.  The statements on
    [event.target] are kept as their outcome: [buttonOk] is false when
    they throw, as [event.target.querySelector('.label')] being [null]
    makes them; [toggleSound] is then not reached. *)
Definition handleSoundToggle (buttonOk contextOk : bool) (s : Setting) : Setting :=
  let newSoundState := negb (soundOn s) in
  if buttonOk
  then mkSetting newSoundState (toggleSound contextOk newSoundState (sound s))
  else mkSetting newSoundState (sound s).

(** The last statement of [updateClock()]. *)
Definition tick_sound (hidden audioOk : bool) (s : Setting) : Setting :=
  if soundOn s then mkSetting (soundOn s) (playTick hidden audioOk (sound s)) else s.

(** The settings restored at start-up with [soundOn] as stored;
    [initApp] does not call [toggleSound]. *)
Definition restored (storedSoundOn : bool) : Setting := mkSetting storedSoundOn initial.

Definition ticks (conditions : list (bool * bool)) (s : Setting) : Setting :=
  fold_left (fun s c => tick_sound c.1 c.2 s) conditions s.

End Sound.

(** ** sw.js *)

Module ServiceWorker.

Definition CACHE_VERSION : string := "flip-clock-v1.0.0".
Definition CACHE_NAME : string := "flip-clock-" ++ CACHE_VERSION.
Definition FONT_CACHE : string := "flip-clock-fonts-v1".

Definition STATIC_FILES : list string :=
  [ "/"; "/index.html"; "/manifest.json";
    "/src/css/base.css"; "/src/css/theme.css"; "/src/css/flip.css";
    "/src/js/main.js"; "/src/js/clock.js"; "/src/js/renderer.js";
    "/src/js/sound.js"; "/src/js/settings.js"; "/src/js/theme.js";
    "/src/js/timezone.js"; "/src/js/pwa.js"; "/src/data/timezones.json";
    "/icons/192.png"; "/icons/512.png"; "/audio/tick.mp3" ].

(** What the worker reads of a URL, and what tells two of them apart. *)
Record URL : Type := mkURL { hostname : string; pathname : string; search : string }.

Record Request : Type := mkRequest { method : string; url : URL; mode : string }.

(** A response: its status and its body; headers are left out, and
    with them what [Vary] does to a cache. *)
Record Response : Type := mkResponse { status : Z; body : string }.

(** The entry of a cache a request is matched against. *)
Definition key (u : URL) : string * string * string :=
  (hostname u, pathname u, search u).

(** A cache holds responses by request URL; the cache storage holds
    caches by name. *)
Abbreviation Cache := (gmap (string * string * string) Response).
Abbreviation CacheStorage := (gmap string Cache).

(** [caches.open(name)]: the cache is created when there is none. *)
Definition open_cache (name : string) (storage : CacheStorage) : Cache * CacheStorage :=
  let cache := default ∅ (storage !! name) in
  (cache, <[name := cache]> storage).

(** [cache.put(request, response)] on the cache named [name]. *)
Definition put (name : string) (request : Request) (response : Response)
    (storage : CacheStorage) : CacheStorage :=
  <[name := <[key (url request) := response]> (default ∅ (storage !! name))]> storage.

(** The test of the [activate] listener on a cache name. *)
Definition is_old_cache (cacheName : string) : bool :=
  String.prefix "flip-clock-" cacheName && negb (String.eqb cacheName CACHE_NAME).

(** The [activate] listener: every cache it calls old is deleted. *)
Definition activate (storage : CacheStorage) : CacheStorage :=
  filter (fun entry => is_old_cache entry.1 = false) storage.

(** [isStaticFile(url)]: each file of the list is an absolute path, which
    is its own [pathname] once resolved against the origin. *)
Definition isStaticFile (u : URL) : bool :=
  existsb (fun file => String.eqb (pathname u) file) STATIC_FILES.

Definition isGoogleFont (u : URL) : bool :=
  String.eqb (hostname u) "fonts.googleapis.com"
  || String.eqb (hostname u) "fonts.gstatic.com".

Definition isNavigationRequest (request : Request) : bool :=
  String.eqb (mode request) "navigate".

(** What the [fetch] listener answers with; [Unhandled] when it does not
    call [respondWith]. *)
Inductive Strategy : Type :=
| CacheFirst | StaleWhileRevalidate | Navigation | NetworkFirst | Unhandled.

Definition route (request : Request) : Strategy :=
  if String.eqb (method request) "GET" then
    if isStaticFile (url request) then CacheFirst
    else if isGoogleFont (url request) then StaleWhileRevalidate
    else if isNavigationRequest request then Navigation
    else NetworkFirst
  else Unhandled.

(** The strategies.  [network] is what [fetch(request)] settles to:
    [None] when it rejects, which it does with a TypeError.  Each
    answers the response, or the exception the promise rejects with,
    and the cache storage it leaves. *)
Definition cacheFirst (network : option Response) (request : Request)
    (storage : CacheStorage) : Completion Response * CacheStorage :=
  let '(cache, storage) := open_cache CACHE_NAME storage in
  match cache !! key (url request) with
  | Some cachedResponse => (Normal cachedResponse, storage)
  | None =>
      match network with
      | None => (Throw TypeError, storage)
      | Some networkResponse =>
          (Normal networkResponse,
           if (status networkResponse =? 200)%Z
           then put CACHE_NAME request networkResponse storage
           else storage)
      end
  end.

Definition staleWhileRevalidate (network : option Response) (request : Request)
    (cacheName : string) (storage : CacheStorage)
  : Completion Response * CacheStorage :=
  let '(cache, storage) := open_cache cacheName storage in
  let cachedResponse := cache !! key (url request) in
  let storage' :=
    match network with
    | Some networkResponse =>
        if (status networkResponse =? 200)%Z
        then put cacheName request networkResponse storage
        else storage
    | None => storage
    end in
  match cachedResponse, network with
  | Some cachedResponse, _ => (Normal cachedResponse, storage')
  | None, Some networkResponse => (Normal networkResponse, storage')
  | None, None => (Throw TypeError, storage')
  end.

Definition networkFirst (network : option Response) (request : Request)
    (storage : CacheStorage) : Completion Response * CacheStorage :=
  match network with
  | Some networkResponse => (Normal networkResponse, storage)
  | None =>
      let '(cache, storage) := open_cache CACHE_NAME storage in
      match cache !! key (url request) with
      | Some cachedResponse => (Normal cachedResponse, storage)
      | None => (Throw TypeError, storage)
      end
  end.

(** [navigationHandler(request)].  [origin] is the host of the worker,
    against which ['/index.html'] and ['/'] are resolved; [offline] is
    the markup of the page built when nothing is cached. *)
Definition navigationHandler (origin offline : string) (network : option Response)
    (request : Request) (storage : CacheStorage)
  : Completion Response * CacheStorage :=
  match network with
  | Some networkResponse => (Normal networkResponse, storage)
  | None =>
      let '(cache, storage) := open_cache CACHE_NAME storage in
      match cache !! key (mkURL origin "/index.html" "") with
      | Some cachedResponse => (Normal cachedResponse, storage)
      | None =>
          match cache !! key (mkURL origin "/" "") with
          | Some cachedResponse => (Normal cachedResponse, storage)
          | None => (Normal (mkResponse 200 offline), storage)
          end
      end
  end.

(** The [fetch] listener as a whole: [None] when the request is left to
    the browser. *)
Definition on_fetch (origin offline : string) (network : option Response)
    (request : Request) (storage : CacheStorage)
  : option (Completion Response * CacheStorage) :=
  match route request with
  | CacheFirst => Some (cacheFirst network request storage)
  | StaleWhileRevalidate =>
      Some (staleWhileRevalidate network request FONT_CACHE storage)
  | Navigation => Some (navigationHandler origin offline network request storage)
  | NetworkFirst => Some (networkFirst network request storage)
  | Unhandled => None
  end.

Definition get (host path : string) : Request :=
  mkRequest "GET" (mkURL host path "") "cors".

End ServiceWorker.

(** * Properties *)

(** ** The formatter *)

Section ClockFacts.
Import Clock.

Lemma HourFromTime_range t : (0 <= HourFromTime t < 24)%Z.
Proof. unfold HourFromTime. apply Z.mod_pos_bound. lia. Qed.

Lemma MinFromTime_range t : (0 <= MinFromTime t < 60)%Z.
Proof. unfold MinFromTime. apply Z.mod_pos_bound. lia. Qed.

Lemma SecFromTime_range t : (0 <= SecFromTime t < 60)%Z.
Proof. unfold SecFromTime. apply Z.mod_pos_bound. lia. Qed.

Lemma hour12_of_range h : (1 <= hour12_of h <= 12)%Z.
Proof.
  unfold hour12_of. pose proof (Z.mod_pos_bound h 12 ltac:(lia)).
  destruct (Z.eqb_spec (h mod 12) 0); lia.
Qed.

(** Every number below one hundred prints as two digits once padded:
    checked on each of them. *)
Lemma two_digit_table :
  forallb (fun k => is_two_digits (two_digit (Z.of_nat k))) (List.seq 0 100) = true.
Proof. vm_compute. reflexivity. Qed.

Lemma two_digit_shape n : (0 <= n < 100)%Z -> is_two_digits (two_digit n) = true.
Proof.
  intros Hn. pose proof two_digit_table as Ht.
  rewrite forallb_forall in Ht.
  specialize (Ht (Z.to_nat n)). rewrite Z2Nat.id in Ht by lia.
  apply Ht, in_seq. lia.
Qed.

Lemma is_two_digits_inv s :
  is_two_digits s = true ->
  exists a b, s = String a (String b EmptyString)
    /\ is_digit (String a EmptyString) = true
    /\ is_digit (String b EmptyString) = true.
Proof.
  destruct s as [|a [|b [|c s]]]; simpl; try discriminate.
  intros H. apply andb_prop in H. eauto.
Qed.

End ClockFacts.

Section ClockShape.
Import Clock.

Lemma shown_hour_range hour12 t : (0 <= shown_hour hour12 t < 100)%Z.
Proof.
  unfold shown_hour. pose proof (HourFromTime_range t).
  pose proof (hour12_of_range (HourFromTime t)). destruct hour12; lia.
Qed.

Lemma digits_of_enUS hour12 t :
  digits_of_parts (enUS_parts hour12 t) =
  let hh := two_digit (shown_hour hour12 t) in
  let mm := two_digit (MinFromTime t) in
  let ss := two_digit (SecFromTime t) in
  {| h1 := or_else (index (or_else (Some hh) "00") 0) "0";
     h2 := or_else (index (or_else (Some hh) "00") 1) "0";
     m1 := or_else (index (or_else (Some mm) "00") 0) "0";
     m2 := or_else (index (or_else (Some mm) "00") 1) "0";
     s1 := or_else (index (or_else (Some ss) "00") 0) "0";
     s2 := or_else (index (or_else (Some ss) "00") 1) "0";
     ampm := shown_label hour12 t |}.
Proof.
  unfold shown_label, shown_hour. destruct hour12; cbn; [|reflexivity].
  destruct (HourFromTime t <? 12)%Z; reflexivity.
Qed.

Lemma pick_two_digits s :
  is_two_digits s = true ->
  is_digit (or_else (index (or_else (Some s) "00") 0) "0") = true
  /\ is_digit (or_else (index (or_else (Some s) "00") 1) "0") = true
  /\ or_else (index (or_else (Some s) "00") 0) "0"
       ++ or_else (index (or_else (Some s) "00") 1) "0" = s
  /\ default "" (index s 0) = or_else (index (or_else (Some s) "00") 0) "0"
  /\ default "" (index s 1) = or_else (index (or_else (Some s) "00") 1) "0".
Proof.
  intros H. apply is_two_digits_inv in H as (a & b & -> & Ha & Hb).
  cbn. auto.
Qed.

Lemma enUS_six_digits hour12 t :
  six_digits (digits_of_parts (enUS_parts hour12 t)).
Proof.
  rewrite digits_of_enUS. cbv zeta. unfold six_digits. cbn [h1 h2 m1 m2 s1 s2].
  pose proof (shown_hour_range hour12 t).
  pose proof (MinFromTime_range t). pose proof (SecFromTime_range t).
  destruct (pick_two_digits (two_digit (shown_hour hour12 t))) as (? & ? & _);
    [apply two_digit_shape; lia|].
  destruct (pick_two_digits (two_digit (MinFromTime t))) as (? & ? & _);
    [apply two_digit_shape; lia|].
  destruct (pick_two_digits (two_digit (SecFromTime t))) as (? & ? & _);
    [apply two_digit_shape; lia|].
  auto 10.
Qed.

Lemma shown_label_empty hour12 t : shown_label hour12 t = "" <-> hour12 = false.
Proof.
  unfold shown_label. destruct hour12; [|tauto].
  destruct (HourFromTime t <? 12)%Z; split; discriminate.
Qed.

Lemma fallback_ampm_label hour12 t :
  fallback_ampm hour12 (HourFromTime t) = shown_label hour12 t.
Proof.
  unfold fallback_ampm, shown_label. destruct hour12; [|reflexivity].
  destruct (Z.leb_spec 12 (HourFromTime t)), (Z.ltb_spec (HourFromTime t) 12);
    try reflexivity; lia.
Qed.

Lemma fallback_hours_shown hour12 t :
  fallback_hours hour12 (HourFromTime t) = shown_hour hour12 t.
Proof. reflexivity. Qed.

(** The catch block builds the object the en-US formatter would give
    for the local wall-clock time. *)
Lemma catch_as_enUS rt o :
  getTimeParts_catch rt o
  = digits_of_parts (enUS_parts (is12h o) (local_time rt)).
Proof.
  rewrite digits_of_enUS. unfold getTimeParts_catch. cbv zeta.
  fold (local_time rt). rewrite fallback_ampm_label, fallback_hours_shown.
  fold (two_digit (shown_hour (is12h o) (local_time rt))).
  fold (two_digit (MinFromTime (local_time rt))).
  fold (two_digit (SecFromTime (local_time rt))).
  pose proof (shown_hour_range (is12h o) (local_time rt)).
  pose proof (MinFromTime_range (local_time rt)).
  pose proof (SecFromTime_range (local_time rt)).
  destruct (pick_two_digits (two_digit (shown_hour (is12h o) (local_time rt))))
    as (_ & _ & _ & -> & ->); [apply two_digit_shape; lia|].
  destruct (pick_two_digits (two_digit (MinFromTime (local_time rt))))
    as (_ & _ & _ & -> & ->); [apply two_digit_shape; lia|].
  destruct (pick_two_digits (two_digit (SecFromTime (local_time rt))))
    as (_ & _ & _ & -> & ->); [apply two_digit_shape; lia|].
  reflexivity.
Qed.

Lemma enUS_pairs hour12 t :
  let tp := digits_of_parts (enUS_parts hour12 t) in
  h1 tp ++ h2 tp = two_digit (shown_hour hour12 t)
  /\ m1 tp ++ m2 tp = two_digit (MinFromTime t)
  /\ s1 tp ++ s2 tp = two_digit (SecFromTime t)
  /\ ampm tp = shown_label hour12 t.
Proof.
  rewrite digits_of_enUS. cbv zeta. cbn [h1 h2 m1 m2 s1 s2 ampm].
  pose proof (shown_hour_range hour12 t).
  pose proof (MinFromTime_range t). pose proof (SecFromTime_range t).
  destruct (pick_two_digits (two_digit (shown_hour hour12 t))) as (_ & _ & ? & _);
    [apply two_digit_shape; lia|].
  destruct (pick_two_digits (two_digit (MinFromTime t))) as (_ & _ & ? & _);
    [apply two_digit_shape; lia|].
  destruct (pick_two_digits (two_digit (SecFromTime t))) as (_ & _ & ? & _);
    [apply two_digit_shape; lia|].
  auto.
Qed.

End ClockShape.

(** ** Claims about [getTimeParts] *)

Section ClockClaims.
Import Clock.

Variable zones : string -> option (Z -> Z).
Variables (now : Z) (local : Z -> Z).

Lemma getTimeParts_enUS_valid tz offset t hour12 :
  zones tz = Some offset ->
  getTimeParts (enUS zones now local) (Some t) (mkOptions tz hour12)
  = Normal (digits_of_parts (enUS_parts hour12 (t + offset t))).
Proof.
  intros Hz. unfold getTimeParts, getTimeParts_try, enUS, enUS_DateTimeFormat.
  cbn. rewrite Hz. reflexivity.
Qed.

(** C1. In 12-hour mode, an instant whose hour of day in the configured
    zone is 13 is shown with the hour padded to two characters, "0" then
    "1", and the label "PM". *)
Theorem hour_13_is_01_PM tz t :
  hour_of_day zones tz t = Some 13%Z ->
  exists tp,
    getTimeParts (enUS zones now local) (Some t) (mkOptions tz true) = Normal tp
    /\ h1 tp = "0" /\ h2 tp = "1" /\ ampm tp = "PM".
Proof.
  unfold hour_of_day. destruct (zones tz) as [offset|] eqn:Hz; [|discriminate].
  intros [= Hh]. eexists. split.
  - apply getTimeParts_enUS_valid, Hz.
  - rewrite digits_of_enUS. cbn [h1 h2 ampm].
    unfold shown_hour, shown_label. rewrite Hh. vm_compute. auto.
Qed.

(** Over this engine the try block ends with the parts of some
    wall-clock time value, and so does the catch block. *)
Lemma getTimeParts_enUS_cases date o :
  exists t, getTimeParts (enUS zones now local) date o
            = Normal (digits_of_parts (enUS_parts (is12h o) t)).
Proof.
  unfold getTimeParts.
  destruct (getTimeParts_try (enUS zones now local) date o) as [tp|e] eqn:Htry.
  - unfold getTimeParts_try, enUS, enUS_DateTimeFormat in Htry. cbn in Htry.
    destruct (zones (timezone o)) as [offset|]; [|discriminate].
    destruct date as [t|]; [|discriminate].
    cbn in Htry. injection Htry as <-. eexists. reflexivity.
  - exists (local_time (enUS zones now local)). cbn.
    rewrite catch_as_enUS. reflexivity.
Qed.

(** C4. For every date, zone and hour cycle, [getTimeParts] returns six
    fields h1, h2, m1, m2, s1, s2 that are each one character in
    '0'..'9', and a label [ampm] that is empty exactly when 12-hour mode
    is off. *)
Theorem getTimeParts_six_digits date o :
  exists tp,
    getTimeParts (enUS zones now local) date o = Normal tp
    /\ six_digits tp
    /\ (ampm tp = "" <-> is12h o = false).
Proof.
  destruct (getTimeParts_enUS_cases date o) as [t Ht].
  eexists. split; [exact Ht|]. split.
  - apply enUS_six_digits.
  - destruct (enUS_pairs (is12h o) t) as (_ & _ & _ & ->).
    apply shown_label_empty.
Qed.

(** C5. In 12-hour mode an instant whose hour of day is 0 is shown as
    "1","2" with "AM", and one whose hour of day is 12 as "1","2" with
    "PM"; the catch block does the same with the local hour. *)
Theorem twelve_hour_boundary tz t :
  (hour_of_day zones tz t = Some 0%Z ->
   exists tp,
     getTimeParts (enUS zones now local) (Some t) (mkOptions tz true) = Normal tp
     /\ h1 tp = "1" /\ h2 tp = "2" /\ ampm tp = "AM")
  /\ (hour_of_day zones tz t = Some 12%Z ->
      exists tp,
        getTimeParts (enUS zones now local) (Some t) (mkOptions tz true) = Normal tp
        /\ h1 tp = "1" /\ h2 tp = "2" /\ ampm tp = "PM")
  /\ (forall rt zone,
        HourFromTime (local_time rt) = 0%Z ->
        let tp := getTimeParts_catch rt (mkOptions zone true) in
        h1 tp = "1" /\ h2 tp = "2" /\ ampm tp = "AM")
  /\ (forall rt zone,
        HourFromTime (local_time rt) = 12%Z ->
        let tp := getTimeParts_catch rt (mkOptions zone true) in
        h1 tp = "1" /\ h2 tp = "2" /\ ampm tp = "PM").
Proof.
  unfold hour_of_day. split; [|split; [|split]].
  1,2: destruct (zones tz) as [offset|] eqn:Hz; [|discriminate];
       intros [= Hh]; eexists; (split; [apply getTimeParts_enUS_valid, Hz|]);
       rewrite digits_of_enUS; cbn [h1 h2 ampm];
       unfold shown_hour, shown_label; rewrite Hh; vm_compute; auto.
  all: intros rt zone Hh; rewrite catch_as_enUS, digits_of_enUS;
       cbn [is12h h1 h2 ampm]; unfold shown_hour, shown_label; rewrite Hh;
       vm_compute; auto.
Qed.

End ClockClaims.

Section ClockErrors.
Import Clock.


End ClockErrors.

Lemma hour_13_is_01_PM_witness :
  exists tp,
    Clock.getTimeParts (Clock.enUS Clock.utc_only 0 (fun _ => 0%Z)) (Some 47109000%Z)
      (Clock.mkOptions "UTC" true) = Normal tp
    /\ Clock.h1 tp = "0" /\ Clock.h2 tp = "1" /\ Clock.ampm tp = "PM".
Proof.
  apply (hour_13_is_01_PM Clock.utc_only 0 (fun _ => 0%Z) "UTC" 47109000%Z).
  reflexivity.
Defined.


Lemma twelve_hour_boundary_witness :
  (exists tp,
     Clock.getTimeParts (Clock.enUS Clock.utc_only 0 (fun _ => 0%Z)) (Some 0%Z)
       (Clock.mkOptions "UTC" true) = Normal tp
     /\ Clock.h1 tp = "1" /\ Clock.h2 tp = "2" /\ Clock.ampm tp = "AM")
  /\ (exists tp,
     Clock.getTimeParts (Clock.enUS Clock.utc_only 0 (fun _ => 0%Z)) (Some 43200000%Z)
       (Clock.mkOptions "UTC" true) = Normal tp
     /\ Clock.h1 tp = "1" /\ Clock.h2 tp = "2" /\ Clock.ampm tp = "PM")
  /\ Clock.getTimeParts_catch (Clock.enUS Clock.utc_only 300000 (fun _ => 0%Z))
       (Clock.mkOptions "Mars/Phobos" true)
     = Clock.mkTimeParts "1" "2" "0" "5" "0" "0" "AM"
  /\ Clock.getTimeParts_catch (Clock.enUS Clock.utc_only 43500000 (fun _ => 0%Z))
       (Clock.mkOptions "Mars/Phobos" true)
     = Clock.mkTimeParts "1" "2" "0" "5" "0" "0" "PM".
Proof.
  pose proof (twelve_hour_boundary Clock.utc_only 0 (fun _ => 0%Z) "UTC" 0%Z)
    as (Hmidnight & _ & Hcatch0 & Hcatch12).
  pose proof (twelve_hour_boundary Clock.utc_only 0 (fun _ => 0%Z) "UTC" 43200000%Z)
    as (_ & Hnoon & _ & _).
  split; [apply Hmidnight; reflexivity|].
  split; [apply Hnoon; reflexivity|].
  split.
  - destruct (Hcatch0 (Clock.enUS Clock.utc_only 300000 (fun _ => 0%Z)) "Mars/Phobos"
                eq_refl) as (_ & _ & _).
    reflexivity.
  - destruct (Hcatch12 (Clock.enUS Clock.utc_only 43500000 (fun _ => 0%Z)) "Mars/Phobos"
                eq_refl) as (_ & _ & _).
    reflexivity.
Defined.

(** ** The renderer *)

Section RendererFacts.
Import Clock Renderer.

Lemma filter_agree {A} (P Q : A -> Prop) `{!∀ x, Decision (P x), !∀ x, Decision (Q x)}
    (l : list A) :
  (∀ x, x ∈ l -> P x <-> Q x) -> filter P l = filter Q l.
Proof.
  induction l as [|a l IH]; intros Hpq; [reflexivity|].
  rewrite !filter_cons.
  assert (Ha : P a <-> Q a) by (apply Hpq; left).
  rewrite IH by (intros x Hx; apply Hpq; right; exact Hx).
  destruct (decide (P a)), (decide (Q a)); tauto.
Qed.

Lemma entries_by_position :
  imap pair keys = map (fun key => (position key, key)) keys.
Proof. reflexivity. Qed.

Lemma key_in_keys key : key ∈ keys.
Proof. apply (bool_decide_unpack _). destruct key; vm_compute; reflexivity. Qed.

Lemma keys_NoDup : NoDup keys.
Proof. apply (bool_decide_unpack _). vm_compute. reflexivity. Qed.

Lemma keys_position key : keys !! position key = Some key.
Proof. destruct key; reflexivity. Qed.

Lemma keys_lookup i key : keys !! i = Some key -> i = position key.
Proof.
  do 6 (destruct i as [|i]; [intros [= <-]; reflexivity|]).
  discriminate.
Qed.

(** One callback of the loop touches its own element only, and leaves
    [previousTime] alone. *)
Lemma render_digit_previousTime now tp st e :
  previousTime (render_digit now tp st e) = previousTime st.
Proof.
  destruct e as [i key]. unfold render_digit.
  destruct (clockElements st key); [|reflexivity].
  destruct (changed st tp i key); reflexivity.
Qed.

Lemma render_digit_ampm now tp st e :
  ampmElement (render_digit now tp st e) = ampmElement st.
Proof.
  destruct e as [i key]. unfold render_digit.
  destruct (clockElements st key); [|reflexivity].
  destruct (changed st tp i key); reflexivity.
Qed.

Lemma render_digit_other now tp st i key key' :
  key ≠ key' ->
  clockElements (render_digit now tp st (i, key)) key' = clockElements st key'.
Proof.
  intros Hne. unfold render_digit.
  destruct (clockElements st key); [|reflexivity].
  destruct (changed st tp i key); [|reflexivity].
  cbn. apply fn_lookup_insert_ne. exact Hne.
Qed.

Lemma render_digit_same now tp st key :
  clockElements (render_digit now tp st (position key, key)) key = rendered st tp key.
Proof.
  unfold render_digit, rendered.
  destruct (clockElements st key) eqn:He; [|exact He].
  destruct (changed st tp (position key) key); [|exact He].
  cbn. rewrite fn_lookup_insert. reflexivity.
Qed.

Lemma render_digit_timeouts now tp st i key :
  timeouts (render_digit now tp st (i, key))
  = (timeouts st ++ (if changed st tp i key then [((now + duration)%Z, key)] else []))%list.
Proof.
  unfold render_digit, changed.
  destruct (clockElements st key); [|symmetry; apply app_nil_r].
  cbn. destruct (bool_decide _); [reflexivity|symmetry; apply app_nil_r].
Qed.

Lemma changed_ext st st' tp i key :
  clockElements st' key = clockElements st key ->
  previousTime st' = previousTime st ->
  changed st' tp i key = changed st tp i key.
Proof. intros He Hp. unfold changed. rewrite He, Hp. reflexivity. Qed.

Lemma rendered_ext st st' tp key :
  clockElements st' key = clockElements st key ->
  previousTime st' = previousTime st ->
  rendered st' tp key = rendered st tp key.
Proof.
  intros He Hp. unfold rendered.
  rewrite (changed_ext st st' tp _ key He Hp), He. reflexivity.
Qed.

(** The loop over a run of distinct keys. *)
Lemma loop_previousTime now tp ks st :
  previousTime (fold_left (render_digit now tp)
                          (map (fun key => (position key, key)) ks) st)
  = previousTime st.
Proof.
  revert st. induction ks as [|k ks IH]; intros st; [reflexivity|].
  cbn [map fold_left]. rewrite IH. apply render_digit_previousTime.
Qed.

Lemma loop_ampm now tp ks st :
  ampmElement (fold_left (render_digit now tp)
                         (map (fun key => (position key, key)) ks) st)
  = ampmElement st.
Proof.
  revert st. induction ks as [|k ks IH]; intros st; [reflexivity|].
  cbn [map fold_left]. rewrite IH. apply render_digit_ampm.
Qed.

Lemma loop_elements now tp ks st key :
  NoDup ks ->
  clockElements (fold_left (render_digit now tp)
                           (map (fun key => (position key, key)) ks) st) key
  = if decide (key ∈ ks) then rendered st tp key else clockElements st key.
Proof.
  revert st. induction ks as [|k ks IH]; intros st Hnd.
  - cbn. destruct (decide (key ∈ [])) as [Hin|]; [|reflexivity].
    apply elem_of_nil in Hin. contradiction.
  - apply list.NoDup_cons in Hnd as [Hk Hnd]. cbn [map fold_left].
    rewrite IH by exact Hnd.
    destruct (decide (key = k)) as [->|Hne].
    + destruct (decide (k ∈ ks)); [contradiction|].
      destruct (decide (k ∈ k :: ks)) as [_|Hn]; [|exfalso; apply Hn; left].
      apply render_digit_same.
    + assert (Hother : clockElements (render_digit now tp st (position k, k)) key
                       = clockElements st key)
        by (apply render_digit_other; congruence).
      destruct (decide (key ∈ ks)) as [Hin|Hin].
      * destruct (decide (key ∈ k :: ks)) as [_|Hn];
          [|exfalso; apply Hn; right; exact Hin].
        apply rendered_ext; [exact Hother|apply render_digit_previousTime].
      * destruct (decide (key ∈ k :: ks)) as [Hn|_]; [|exact Hother].
        apply elem_of_cons in Hn as [?|?]; contradiction.
Qed.

Lemma loop_timeouts now tp ks st :
  NoDup ks ->
  timeouts (fold_left (render_digit now tp)
                      (map (fun key => (position key, key)) ks) st)
  = (timeouts st
     ++ map (fun key => ((now + duration)%Z, key))
            (filter (fun key => changed st tp (position key) key = true) ks))%list.
Proof.
  revert st. induction ks as [|k ks IH]; intros st Hnd.
  - cbn. symmetry. apply app_nil_r.
  - apply list.NoDup_cons in Hnd as [Hk Hnd]. cbn [map fold_left].
    rewrite IH by exact Hnd. rewrite render_digit_timeouts, <- app_assoc. f_equal.
    assert (Hsame : filter (fun key =>
                changed (render_digit now tp st (position k, k)) tp (position key) key
                = true) ks
              = filter (fun key => changed st tp (position key) key = true) ks).
    { apply filter_agree. intros key Hin.
      rewrite (changed_ext st); [tauto| |apply render_digit_previousTime].
      apply render_digit_other. intros ->. contradiction. }
    rewrite Hsame, filter_cons.
    destruct (changed st tp (position k) k) eqn:Hc.
    + destruct (decide (true = true)); [reflexivity|congruence].
    + destruct (decide (false = true)); [discriminate|reflexivity].
Qed.

(** [render] as a whole. *)
Lemma render_elements now tp st key :
  clockElements (render now tp st) key = rendered st tp key.
Proof.
  unfold render, render_ampm. rewrite entries_by_position.
  assert (H := loop_elements now tp keys st key keys_NoDup).
  destruct (decide (key ∈ keys)) as [_|Hn]; [|destruct (Hn (key_in_keys key))].
  destruct (ampmElement _); exact H.
Qed.

Lemma render_previousTime now tp st :
  previousTime (render now tp st) = currentTime tp.
Proof. reflexivity. Qed.

Lemma render_timeouts now tp st :
  timeouts (render now tp st)
  = (timeouts st
     ++ map (fun key => ((now + duration)%Z, key))
            (filter (fun key => changed st tp (position key) key = true) keys))%list.
Proof.
  unfold render, render_ampm. rewrite entries_by_position.
  assert (H := loop_timeouts now tp keys st keys_NoDup).
  destruct (ampmElement _); exact H.
Qed.

Lemma changedPositions_keys st tp :
  changedPositions st tp
  = map position (filter (fun key => changed st tp (position key) key = true) keys).
Proof.
  unfold changedPositions. rewrite entries_by_position.
  induction keys as [|k ks IH]; [reflexivity|].
  cbn [map]. rewrite !filter_cons. cbn [fst snd].
  destruct (decide (changed st tp (position k) k = true)); cbn [map]; rewrite IH;
    reflexivity.
Qed.

Lemma elem_of_changedPositions st tp i :
  i ∈ changedPositions st tp
  <-> exists key, i = position key /\ changed st tp (position key) key = true.
Proof.
  rewrite changedPositions_keys, list_elem_of_In, in_map_iff.
  split; intros (key & Hi & Hk); exists key; split; try (symmetry; exact Hi).
  - apply list_elem_of_In, list_elem_of_filter in Hk. tauto.
  - apply list_elem_of_In, list_elem_of_filter. split; [exact Hk|apply key_in_keys].
Qed.

Lemma changed_mounted st tp key :
  is_Some (clockElements st key) ->
  changed st tp (position key) key = true
  <-> Some (field tp key) ≠ JS.index (previousTime st) (position key).
Proof.
  intros [el He]. unfold changed. rewrite He. cbv zeta.
  rewrite bool_decide_eq_true. tauto.
Qed.



End RendererFacts.

Section RendererClaims.
Import Clock Renderer.

Lemma one_char s : String.length s = 1 -> exists a, s = String a EmptyString.
Proof. destruct s as [|a [|b s]]; try discriminate. eauto. Qed.

Lemma six_chars s :
  String.length s = 6 ->
  exists a b c d e f,
    s = String a (String b (String c (String d (String e (String f EmptyString))))).
Proof.
  destruct s as [|a [|b [|c [|d [|e [|f [|g s]]]]]]]; try discriminate.
  intros _. do 6 eexists. reflexivity.
Qed.

(** The string [render] saves holds each digit at the index of its key. *)
Lemma currentTime_index tp key :
  (forall k, String.length (field tp k) = 1) ->
  JS.index (currentTime tp) (position key) = Some (field tp key).
Proof.
  intros H.
  destruct (one_char _ (H k_h1)) as [a Ha], (one_char _ (H k_h2)) as [b Hb],
           (one_char _ (H k_m1)) as [c Hc], (one_char _ (H k_m2)) as [d Hd],
           (one_char _ (H k_s1)) as [e He], (one_char _ (H k_s2)) as [f Hf].
  destruct tp; cbn in *; subst. destruct key; reflexivity.
Qed.

Lemma currentTime_length tp :
  (forall k, String.length (field tp k) = 1) -> String.length (currentTime tp) = 6.
Proof.
  intros H.
  destruct (one_char _ (H k_h1)) as [a Ha], (one_char _ (H k_h2)) as [b Hb],
           (one_char _ (H k_m1)) as [c Hc], (one_char _ (H k_m2)) as [d Hd],
           (one_char _ (H k_s1)) as [e He], (one_char _ (H k_s2)) as [f Hf].
  destruct tp; cbn in *; subst. reflexivity.
Qed.






(** After [resetState] the next [render] flips exactly the positions
    whose new digit is not "0", the character the sentinel holds there:
    all six when no new digit is "0". *)
Lemma reset_flips_nonzero_digits st tp :
  all_mounted st ->
  (forall key, position key ∈ changedPositions (resetState st) tp
               <-> field tp key <> "0")
  /\ ((forall key, field tp key <> "0") ->
      changedPositions (resetState st) tp = [0; 1; 2; 3; 4; 5]).
Proof.
  intros Hm.
  assert (Hc : forall key, changed (resetState st) tp (position key) key = true
                           <-> field tp key <> "0").
  { intros key. rewrite changed_mounted by (apply Hm).
    cbn [previousTime resetState].
    replace (JS.index "000000" (position key)) with (Some "0")
      by (destruct key; reflexivity).
    split; congruence. }
  split.
  - intros key. rewrite elem_of_changedPositions. split.
    + intros (key' & Hp & Hk). 
      assert (key = key') by (destruct key, key'; cbn in Hp; congruence).
      subst. apply Hc, Hk.
    + intros Hne. exists key. split; [reflexivity|apply Hc, Hne].
  - intros Hall. rewrite changedPositions_keys.
    rewrite (filter_agree _ (fun _ => True) keys); [reflexivity|].
    intros key _. rewrite Hc. split; auto.
Qed.

End RendererClaims.



(** C2. After [resetState] every position should flip at the next
    [render].  With 13:05:09 on the page, a reset followed by midnight
    "000000" flips nothing and the page still reads 13:05:09; followed
    by 20:05:09 it flips the positions 0, 3 and 5 only, and the page
    reads 23:05:09: a position whose new digit is the sentinel's "0" is
    neither flipped nor rewritten. *)
Theorem reset_skips_zero_digits :
  let st := Renderer.resetState
              (Renderer.render_at 0 (Renderer.digits "1" "3" "0" "5" "0" "9" "")
                 Renderer.mounted) in
  let midnight := Renderer.digits "0" "0" "0" "0" "0" "0" "" in
  let evening := Renderer.digits "2" "0" "0" "5" "0" "9" "" in
  Renderer.all_mounted st
  /\ Renderer.shown st = "130509"
  /\ Renderer.changedPositions st midnight = []
  /\ Renderer.shown (Renderer.render_at 5000 midnight st) = "130509"
  /\ Renderer.changedPositions st evening = [0; 3; 5]
  /\ Renderer.shown (Renderer.render_at 5000 evening st) = "230509".
Proof.
  split.
  - intros key. destruct key; vm_compute; eauto.
  - vm_compute. repeat split; reflexivity.
Qed.

(** The same through the application: the interval fires at
    13:05:09 UTC, then a zone seven hours ahead is picked; it is
    20:05:09 there, and the page reads 23:05:09. *)
Example timezone_change_leaves_stale_digit :
  let rt := Clock.enUS Clock.two_zones 0 (fun _ => 0%Z) in
  let app1 := Main.tick rt 47109000 Main.running in
  let app2 := snd (Main.selectTimezone (Timezone.construct_of Clock.two_zones)
                     (Clock.getTimeParts rt) "Asia/Ho_Chi_Minh" 47109500 app1) in
  Renderer.shown (Main.renderer app1) = "130509"
  /\ Renderer.previousTime (Main.renderer app2) = "200509"
  /\ Renderer.shown (Main.renderer app2) = "230509".
Proof. vm_compute. repeat split; reflexivity. Qed.

(** ** Flip timers *)

Section TimerFacts.
Import Clock Renderer.

Lemma expire_other st k key :
  k <> key -> clockElements (expire st k) key = clockElements st key.
Proof.
  intros Hne. unfold expire. destruct (clockElements st k); [|reflexivity].
  cbn. apply fn_lookup_insert_ne. exact Hne.
Qed.

Lemma expire_off st key : off key (expire st key).
Proof.
  unfold off, expire. intros element.
  destruct (clockElements st key) as [el|] eqn:He; [|congruence].
  cbn. rewrite fn_lookup_insert. intros [= <-]. cbn.
  intros Hin. apply elem_of_difference in Hin as [_ Hn].
  apply Hn, elem_of_singleton. reflexivity.
Qed.

Lemma expire_keeps_off st k key : off key st -> off key (expire st k).
Proof.
  intros Hoff. destruct (decide (k = key)) as [->|Hne]; [apply expire_off|].
  unfold off. rewrite expire_other by exact Hne. exact Hoff.
Qed.

Lemma expired_other ks st key :
  key ∉ ks -> clockElements (fold_left expire ks st) key = clockElements st key.
Proof.
  revert st. induction ks as [|k ks IH]; intros st Hn; [reflexivity|].
  cbn [fold_left]. apply not_elem_of_cons in Hn as [Hne Hn].
  rewrite IH by exact Hn. apply expire_other. congruence.
Qed.

Lemma expired_keeps_off ks st key : off key st -> off key (fold_left expire ks st).
Proof.
  revert st. induction ks as [|k ks IH]; intros st Hoff; [exact Hoff|].
  cbn [fold_left]. apply IH, expire_keeps_off, Hoff.
Qed.

Lemma expired_off ks st key : key ∈ ks -> off key (fold_left expire ks st).
Proof.
  revert st. induction ks as [|k ks IH]; intros st Hin.
  - apply elem_of_nil in Hin. contradiction.
  - cbn [fold_left]. apply elem_of_cons in Hin as [->|Hin].
    + apply expired_keeps_off, expire_off.
    + apply IH, Hin.
Qed.

Lemma run_timeouts_elements now st key :
  clockElements (run_timeouts now st) key
  = clockElements
      (fold_left expire (map snd (filter (fun t => (t.1 <= now)%Z) (timeouts st))) st)
      key.
Proof. reflexivity. Qed.

(** From an element no callback is waiting on, one flip at instant [T]
    shows until just before [T + duration] and is over from then on. *)
Lemma single_trigger_window st tp T key :
  idle key st ->
  changed st tp (position key) key = true ->
  (forall t, (t < T + duration)%Z -> isFlipping key t (render T tp st) = true)
  /\ (forall t, (T + duration <= t)%Z -> isFlipping key t (render T tp st) = false).
Proof.
  intros Hidle Hc.
  assert (Hel : exists el, clockElements (render T tp st) key
                           = Some (flipped (field tp key) el)).
  { rewrite render_elements. unfold rendered. unfold changed in Hc.
    destruct (clockElements st key) as [el|] eqn:He; [|discriminate].
    exists el. unfold changed. rewrite He. cbv zeta in *. rewrite Hc. reflexivity. }
  destruct Hel as [el Hel].
  assert (Hnew : ((T + duration)%Z, key) ∈ timeouts (render T tp st)).
  { rewrite render_timeouts. apply elem_of_app. right.
    apply list_elem_of_In, in_map_iff. exists key. split; [reflexivity|].
    apply list_elem_of_In, list_elem_of_filter. split; [exact Hc|apply key_in_keys]. }
  split; intros t Ht; unfold isFlipping; rewrite run_timeouts_elements.
  - rewrite expired_other.
    + rewrite Hel. apply bool_decide_eq_true. cbn.
      apply elem_of_union. right. apply elem_of_singleton. reflexivity.
    + intros Hin. apply list_elem_of_In, in_map_iff in Hin as ([t' k] & Hk & Hin).
      cbn in Hk. subst k. apply list_elem_of_In, list_elem_of_filter in Hin as [Hle Hin].
      cbn in Hle. rewrite render_timeouts in Hin.
      apply elem_of_app in Hin as [Hin|Hin].
      * unfold idle in Hidle. rewrite Forall_forall in Hidle.
        apply list_elem_of_In in Hin.
        apply (Hidle (t', key)); [exact Hin|reflexivity].
      * apply list_elem_of_In, in_map_iff in Hin as (k & [= <- _] & _). lia.
  - destruct (clockElements (fold_left _ _ _) key) as [el'|] eqn:He'; [|reflexivity].
    apply bool_decide_eq_false.
    refine (expired_off _ _ key _ el' He').
    apply list_elem_of_In, in_map_iff. exists ((T + duration)%Z, key).
    split; [reflexivity|].
    apply list_elem_of_In, list_elem_of_filter. split; [cbn; lia|exact Hnew].
Qed.

End TimerFacts.

(** C3. A flip started from rest at instant 0 shows at 599 and is over
    at 601.  Started again at 300, while the first is still showing,
    it should show until 900; the callback the first flip scheduled for
    600 is still waiting, though, and takes the class off then: the
    second flip is over at 601. *)
Theorem stale_timeout_ends_flip_early :
  let first := Renderer.digits "0" "0" "0" "0" "0" "1" "" in
  let second := Renderer.digits "0" "0" "0" "0" "0" "2" "" in
  let st1 := Renderer.render_at 0 first Renderer.mounted in
  let st2 := Renderer.render_at 300 second st1 in
  Renderer.isFlipping Renderer.k_s2 599 st1 = true
  /\ Renderer.isFlipping Renderer.k_s2 601 st1 = false
  /\ Renderer.changedPositions (Renderer.run_timeouts 300 st1) second = [5]
  /\ Renderer.timeouts st2 = [(600%Z, Renderer.k_s2); (900%Z, Renderer.k_s2)]
  /\ Renderer.isFlipping Renderer.k_s2 599 st2 = true
  /\ Renderer.isFlipping Renderer.k_s2 601 st2 = false
  /\ Renderer.isFlipping Renderer.k_s2 899 st2 = false.
Proof. vm_compute. repeat split; reflexivity. Qed.

(** The same through the application: the interval fires at
    13:05:09.900 UTC, the page becomes visible again at 13:05:10.200 and
    the listener renders the new second; the flip of the last digit is
    over 301 ms later, when the callback of the first render has run. *)
Example visible_again_mid_flip :
  let rt := Clock.enUS Clock.utc_only 0 (fun _ => 0%Z) in
  let app1 := Main.tick rt 47109900 Main.running in
  let app2 := snd (Main.on_visibilitychange (Clock.getTimeParts rt) false 47110200 app1) in
  Renderer.previousTime (Main.renderer app1) = "130509"
  /\ Renderer.previousTime (Main.renderer app2) = "130510"
  /\ Renderer.isFlipping Renderer.k_s2 47110499 (Main.renderer app2) = true
  /\ Renderer.isFlipping Renderer.k_s2 47110501 (Main.renderer app2) = false.
Proof. vm_compute. repeat split; reflexivity. Qed.

(** ** Settings *)

Section SettingsClaims.
Import Settings.

Lemma DEFAULTS_has_keys rt key :
  key ∈ preference_keys -> is_Some (DEFAULTS rt !! key).
Proof.
  unfold preference_keys, DEFAULTS. rewrite !elem_of_cons, elem_of_nil.
  intros [->|[->|[->|[->|[->|[]]]]]]; simplify_map_eq; eauto.
Qed.

Lemma DEFAULTS_timezone rt :
  DEFAULTS rt !! "timezone" = Some (JString (resolvedTimeZone rt)).
Proof. unfold DEFAULTS. simplify_map_eq. reflexivity. Qed.

Lemma merge_nothing (a : Obj) : merge a ∅ = a.
Proof. unfold merge. apply (left_id ∅ (∪)). Qed.

Lemma loadSettings_stored rt stored parsed :
  getItem rt storage_key = Normal (Some stored) ->
  stored <> "" ->
  JSON_parse rt stored = Normal parsed ->
  loadSettings rt = spread_of parsed ∪ DEFAULTS rt.
Proof.
  intros Hg Hne Hp. unfold loadSettings, loadSettings_try. rewrite Hg. cbn.
  destruct stored as [|c stored]; [congruence|]. cbn. rewrite Hp. reflexivity.
Qed.

(** C9. [loadSettings] answers the stored value spread over the
    defaults, a stored property winning over the default of the same
    name; each of the five preference keys is there; [timezone] is the
    zone the runtime resolved unless the stored value has one; and when
    nothing is stored, or reading or parsing throws, the answer is the
    defaults. *)
Theorem loadSettings_merges_defaults rt :
  (forall key, key ∈ preference_keys -> is_Some (loadSettings rt !! key))
  /\ (forall stored parsed,
        getItem rt storage_key = Normal (Some stored) -> stored <> "" ->
        JSON_parse rt stored = Normal parsed ->
        loadSettings rt = spread_of parsed ∪ DEFAULTS rt
        /\ (forall key v, spread_of parsed !! key = Some v ->
                          loadSettings rt !! key = Some v)
        /\ (forall key, spread_of parsed !! key = None ->
                        loadSettings rt !! key = DEFAULTS rt !! key)
        /\ (spread_of parsed !! "timezone" = None ->
            loadSettings rt !! "timezone" = Some (JString (resolvedTimeZone rt))))
  /\ (getItem rt storage_key = Normal None \/ getItem rt storage_key = Normal (Some "") ->
      loadSettings rt = DEFAULTS rt)
  /\ (forall e, getItem rt storage_key = Throw e -> loadSettings rt = DEFAULTS rt)
  /\ (forall stored e,
        getItem rt storage_key = Normal (Some stored) ->
        JSON_parse rt stored = Throw e ->
        loadSettings rt = DEFAULTS rt).
Proof.
  assert (Hcases : loadSettings rt = DEFAULTS rt
                   \/ exists parsed, loadSettings rt = spread_of parsed ∪ DEFAULTS rt).
  { unfold loadSettings, loadSettings_try.
    destruct (getItem rt storage_key) as [[[|c stored]|]|e]; cbn;
      try (left; apply merge_nothing).
    destruct (JSON_parse rt (String c stored)) as [parsed|e]; cbn;
      [right; eauto|left; apply merge_nothing]. }
  split; [|split; [|split; [|split]]].
  - intros key Hk. destruct Hcases as [->|[parsed ->]].
    + apply DEFAULTS_has_keys, Hk.
    + apply lookup_union_is_Some. right. apply DEFAULTS_has_keys, Hk.
  - intros stored parsed Hg Hne Hp.
    rewrite (loadSettings_stored rt stored parsed Hg Hne Hp).
    split; [reflexivity|]. split; [|split].
    + intros key v Hv. apply lookup_union_Some_l, Hv.
    + intros key Hv. apply lookup_union_r, Hv.
    + intros Hv. rewrite lookup_union_r by exact Hv. apply DEFAULTS_timezone.
  - intros [Hg|Hg]; unfold loadSettings, loadSettings_try; rewrite Hg; cbn;
      apply merge_nothing.
  - intros e Hg. unfold loadSettings, loadSettings_try. rewrite Hg. cbn.
    apply merge_nothing.
  - intros stored e Hg Hp. unfold loadSettings, loadSettings_try. rewrite Hg. cbn.
    destruct stored as [|c stored]; cbn; [apply merge_nothing|].
    rewrite Hp. cbn. apply merge_nothing.
Qed.

End SettingsClaims.

(** ** The current timezone *)

Section TimezoneClaims.
Import Timezone.

Variable construct : string -> Completion unit.

Lemma last_cons {A} (a d : A) (l : list A) : List.last (a :: l) d = List.last l a.
Proof.
  revert a d. induction l as [|b l IH]; intros a d; [reflexivity|].
  change (List.last (b :: l) d = List.last (b :: l) a). rewrite !IH. reflexivity.
Qed.

Lemma setTimezones_last ids st :
  getCurrentTimezone (setTimezones construct ids st)
  = List.last (List.filter (accepts construct) ids) (getCurrentTimezone st).
Proof.
  revert st. induction ids as [|id ids IH]; intros st; [reflexivity|].
  unfold setTimezones in *. cbn [fold_left List.filter]. rewrite IH.
  unfold setTimezone, accepts. destruct (construct id); [|reflexivity].
  rewrite last_cons. reflexivity.
Qed.

(** C10. [setTimezone] with an identifier the engine rejects leaves the
    current timezone as it was; so after any run of calls
    [getCurrentTimezone] answers the last identifier that was accepted,
    and 'UTC' when none was. *)
Theorem setTimezone_atomic_on_error :
  (forall id st,
     accepts construct id = false ->
     setTimezone construct id st = st
     /\ getCurrentTimezone (setTimezone construct id st) = getCurrentTimezone st)
  /\ (forall id st,
        accepts construct id = true ->
        getCurrentTimezone (setTimezone construct id st) = id)
  /\ (forall ids,
        getCurrentTimezone (setTimezones construct ids initial)
        = List.last (List.filter (accepts construct) ids) "UTC").
Proof.
  split; [|split].
  - intros id st. unfold accepts, setTimezone.
    destruct (construct id); [discriminate|auto].
  - intros id st. unfold accepts, setTimezone.
    destruct (construct id); [reflexivity|discriminate].
  - intros ids. apply setTimezones_last.
Qed.

End TimezoneClaims.

(** ** The clock driver *)

Section MainClaims.
Import Clock Main.

(** C8. While the interval is registered, a tick whose formatting
    throws changes nothing: the saved digit string and the rendered
    digits are those of before, and the interval is still registered, so
    the next tick whose formatting succeeds renders its digits. *)
Theorem throwing_tick_is_skipped format now app id e :
  clockInterval app = Some id ->
  format (Some now) (options app) = Throw e ->
  interval_tick format now app = app
  /\ (forall format' now' tp,
        format' (Some now') (options app) = Normal tp ->
        let app' := interval_tick format' now' (interval_tick format now app) in
        clockInterval app' = Some id
        /\ Renderer.previousTime (renderer app') = Renderer.currentTime tp
        /\ renderer app' = Renderer.render_at now' tp (renderer app)).
Proof.
  intros Hi Hf.
  assert (Hskip : interval_tick format now app = app).
  { unfold interval_tick. rewrite Hi.
    unfold updateClock, and_then, gets, lift. rewrite Hf. reflexivity. }
  split; [exact Hskip|].
  intros format' now' tp Hf'. cbv zeta. rewrite Hskip.
  unfold interval_tick. rewrite Hi.
  unfold updateClock, and_then, gets, lift, modify, ret. rewrite Hf'. cbn.
  destruct (to_boolean _); cbn; auto.
Qed.

(** The first call, made by [startClock] itself, is not protected that
    way: when it throws, [setInterval] is never reached. *)
Remark startClock_throwing_first_call format now app id e :
  format (Some now) (options app) = Throw e ->
  startClock format now id app = (Throw e, app).
Proof.
  intros Hf. unfold startClock, updateClock, and_then, gets, lift.
  rewrite Hf. reflexivity.
Qed.

End MainClaims.

Lemma loadSettings_merges_defaults_witness :
  let rt := Settings.mkRuntime
              (fun _ => Normal (Some "{}"))
              (fun _ => Normal (Settings.JObject {[ "theme" := Settings.JString "neon" ]}))
              "Asia/Tokyo" in
  Settings.loadSettings rt !! "theme" = Some (Settings.JString "neon")
  /\ Settings.loadSettings rt !! "timezone" = Some (Settings.JString "Asia/Tokyo").
Proof.
  intros rt.
  destruct (proj1 (proj2 (loadSettings_merges_defaults rt)) "{}"
              (Settings.JObject {[ "theme" := Settings.JString "neon" ]})
              eq_refl ltac:(discriminate) eq_refl) as (_ & Hs & _ & Hz).
  split.
  - apply Hs. reflexivity.
  - apply Hz. reflexivity.
Defined.

Lemma setTimezone_atomic_on_error_witness :
  let construct := Timezone.construct_of Clock.two_zones in
  Timezone.getCurrentTimezone
    (Timezone.setTimezone construct "Mars/Phobos" Timezone.initial) = "UTC"
  /\ Timezone.getCurrentTimezone
       (Timezone.setTimezone construct "Asia/Ho_Chi_Minh" Timezone.initial)
     = "Asia/Ho_Chi_Minh".
Proof.
  intros construct.
  destruct (setTimezone_atomic_on_error construct) as (Hrejected & Haccepted & _).
  split.
  - exact (proj2 (Hrejected "Mars/Phobos" Timezone.initial eq_refl)).
  - exact (Haccepted "Asia/Ho_Chi_Minh" Timezone.initial eq_refl).
Defined.

Lemma throwing_tick_is_skipped_witness :
  let rt := Clock.enUS Clock.utc_only 0 (fun _ => 0%Z) in
  Main.interval_tick Main.stuck 5 Main.running = Main.running
  /\ Renderer.previousTime
       (Main.renderer
          (Main.interval_tick (Clock.getTimeParts rt) 47109000
             (Main.interval_tick Main.stuck 5 Main.running)))
     = "130509".
Proof.
  intros rt.
  destruct (throwing_tick_is_skipped Main.stuck 5 Main.running 1 TypeError
              eq_refl eq_refl) as [Hskip Hnext].
  split; [exact Hskip|].
  exact (proj1 (proj2 (Hnext (Clock.getTimeParts rt) 47109000%Z
                         (Clock.mkTimeParts "1" "3" "0" "5" "0" "9" "") eq_refl))).
Defined.

(** * Further properties of the code *)

(** ** The renderer: what a render leaves on the page *)

Section RendererInvariants.
Import Clock Renderer.

Lemma rendered_text st tp key el :
  single_chars tp -> in_sync st ->
  rendered st tp key = Some el ->
  Some (textContent el) = JS.index (currentTime tp) (position key).
Proof.
  intros Htp Hsync. unfold rendered.
  destruct (clockElements st key) as [old|] eqn:Hold; [|discriminate].
  rewrite currentTime_index by exact Htp.
  destruct (changed st tp (position key) key) eqn:Hc; intros [= <-].
  - reflexivity.
  - unfold changed in Hc. rewrite Hold in Hc. cbv zeta in Hc.
    apply bool_decide_eq_false in Hc.
    rewrite (Hsync key old Hold).
    destruct (decide (Some (field tp key)
                      = JS.index (previousTime st) (position key))) as [He|Hne];
      [symmetry; exact He|contradiction].
Qed.

Lemma run_timeouts_previousTime now st :
  previousTime (run_timeouts now st) = previousTime st.
Proof.
  unfold run_timeouts. cbn.
  generalize (map snd (filter (fun t => (t.1 <= now)%Z) (timeouts st))).
  intros ks. revert st. induction ks as [|k ks IH]; intros st; [reflexivity|].
  cbn [fold_left]. rewrite IH. unfold expire.
  destruct (clockElements st k); reflexivity.
Qed.

Lemma expire_text st k key el :
  clockElements (expire st k) key = Some el ->
  exists old, clockElements st key = Some old /\ textContent el = textContent old
              /\ classList el ⊆ classList old.
Proof.
  destruct (decide (k = key)) as [->|Hne].
  - unfold expire. destruct (clockElements st key) as [old|] eqn:Hold.
    + cbn. rewrite fn_lookup_insert. intros [= <-]. exists old.
      split; [reflexivity|]. split; [reflexivity|]. cbn.
      apply subseteq_difference_l. reflexivity.
    + rewrite Hold. discriminate.
  - rewrite expire_other by exact Hne. intros H. exists el.
    split; [exact H|]. split; reflexivity.
Qed.

Lemma expired_text ks st key el :
  clockElements (fold_left expire ks st) key = Some el ->
  exists old, clockElements st key = Some old /\ textContent el = textContent old
              /\ classList el ⊆ classList old.
Proof.
  revert st. induction ks as [|k ks IH]; intros st H.
  - exists el. split; [exact H|]. split; reflexivity.
  - cbn [fold_left] in H. apply IH in H as (mid & Hmid & Ht & Hc).
    apply expire_text in Hmid as (old & Hold & Ht' & Hc').
    exists old. split; [exact Hold|]. split; [congruence|].
    etransitivity; eassumption.
Qed.

Lemma run_timeouts_in_sync now st : in_sync st -> in_sync (run_timeouts now st).
Proof.
  intros Hsync key el Hel. rewrite run_timeouts_previousTime.
  rewrite run_timeouts_elements in Hel.
  apply expired_text in Hel as (old & Hold & -> & _). apply Hsync, Hold.
Qed.

Lemma run_timeouts_mounted now st key :
  is_Some (clockElements st key) -> is_Some (clockElements (run_timeouts now st) key).
Proof.
  rewrite run_timeouts_elements.
  generalize (map snd (filter (fun t => (t.1 <= now)%Z) (timeouts st))).
  intros ks. revert st. induction ks as [|k ks IH]; intros st Hs; [exact Hs|].
  cbn [fold_left]. apply IH.
  destruct (decide (k = key)) as [->|Hne].
  - unfold expire. destruct Hs as [old Hold]. rewrite Hold. cbn.
    rewrite fn_lookup_insert. eauto.
  - rewrite expire_other by exact Hne. exact Hs.
Qed.

Lemma render_mounted now tp st key :
  is_Some (clockElements st key) -> is_Some (clockElements (render now tp st) key).
Proof.
  intros [old Hold]. rewrite render_elements. unfold rendered. rewrite Hold.
  destruct (changed st tp (position key) key); eauto.
Qed.

Lemma shown_of_texts st s :
  String.length s = 6 ->
  (forall key, exists el, clockElements st key = Some el
                          /\ Some (textContent el) = JS.index s (position key)) ->
  shown st = s.
Proof.
  intros Hs H. destruct (six_chars s Hs) as (a & b & c & d & e & f & ->).
  unfold shown, keys. cbn [map fold_right].
  destruct (H k_h1) as (e1 & -> & H1), (H k_h2) as (e2 & -> & H2),
           (H k_m1) as (e3 & -> & H3), (H k_m2) as (e4 & -> & H4),
           (H k_s1) as (e5 & -> & H5), (H k_s2) as (e6 & -> & H6).
  cbn in H1, H2, H3, H4, H5, H6.
  injection H1 as ->. injection H2 as ->. injection H3 as ->.
  injection H4 as ->. injection H5 as ->. injection H6 as ->.
  reflexivity.
Qed.

Lemma render_at_in_sync now tp st :
  single_chars tp -> in_sync st ->
  in_sync (render_at now tp st)
  /\ (all_mounted st ->
      all_mounted (render_at now tp st)
      /\ shown (render_at now tp st) = currentTime tp).
Proof.
  intros Htp Hsync.
  assert (Hsync' : in_sync (render_at now tp st)).
  { intros key el Hel. unfold render_at in *. rewrite render_previousTime.
    rewrite render_elements in Hel.
    apply (rendered_text (run_timeouts now st)); auto using run_timeouts_in_sync. }
  split; [exact Hsync'|]. intros Hm.
  assert (Hm' : all_mounted (render_at now tp st)).
  { intros key. apply render_mounted, run_timeouts_mounted, Hm. }
  split; [exact Hm'|].
  apply shown_of_texts; [apply currentTime_length, Htp|].
  intros key. destruct (Hm' key) as [el Hel]. exists el. split; [exact Hel|].
  apply Hsync' in Hel. exact Hel.
Qed.

(** X1. A render keeps the page and the saved string together: when
    every digit element reads the character saved for its position,
    then after [render] of one-character digits it reads the new digit
    of its position, and a page with the six elements reads the
    concatenation of the new digits. *)
Theorem render_keeps_in_sync now tp st :
  single_chars tp -> in_sync st ->
  in_sync (render_at now tp st)
  /\ (all_mounted st ->
      all_mounted (render_at now tp st)
      /\ shown (render_at now tp st) = currentTime tp).
Proof. apply render_at_in_sync. Qed.

Lemma run_timeouts_ampm now st : ampmElement (run_timeouts now st) = ampmElement st.
Proof.
  unfold run_timeouts. cbn [ampmElement].
  generalize (map snd (filter (fun t => (t.1 <= now)%Z) (timeouts st))).
  intros ks. revert st. induction ks as [|k ks IH]; intros st; [reflexivity|].
  cbn [fold_left]. rewrite IH. unfold expire.
  destruct (clockElements st k); reflexivity.
Qed.

End RendererInvariants.

Lemma render_keeps_in_sync_witness :
  Renderer.shown
    (Renderer.render_at 0 (Renderer.digits "1" "3" "0" "5" "0" "9" "") Renderer.mounted)
  = "130509".
Proof.
  refine (proj2 (proj2 (render_keeps_in_sync 0
            (Renderer.digits "1" "3" "0" "5" "0" "9" "") Renderer.mounted _ _) _)).
  - intros key. destruct key; reflexivity.
  - intros key el. destruct key; vm_compute; intros [= <-]; reflexivity.
  - intros key. destruct key; vm_compute; eauto.
Defined.

Section RendererIdempotence.
Import Clock Renderer.

Lemma unchanged_after_render now tp st key :
  single_chars tp -> changed (render now tp st) tp (position key) key = false.
Proof.
  intros Htp. unfold changed.
  destruct (clockElements (render now tp st) key); [|reflexivity].
  cbv zeta. rewrite render_previousTime, currentTime_index by exact Htp.
  apply bool_decide_eq_false. intros Hne. apply Hne. reflexivity.
Qed.

Lemma no_keys_changed st tp :
  (forall key, changed st tp (position key) key = false) ->
  filter (fun key => changed st tp (position key) key = true) keys = [].
Proof.
  intros H. apply elem_of_nil_inv. intros key Hin.
  apply list_elem_of_filter in Hin as [Hc _]. rewrite H in Hc. discriminate.
Qed.

Lemma render_ampm_twice tp st :
  ampmElement (render_ampm tp (render_ampm tp st)) = ampmElement (render_ampm tp st).
Proof.
  destruct (ampmElement st) as [el|] eqn:He.
  - unfold render_ampm. rewrite He. cbn.
    destruct (ampm tp) as [|c label]; cbn.
    + rewrite difference_twice_L. reflexivity.
    + rewrite <- (assoc_L (∪)), (idemp_L (∪)). reflexivity.
  - assert (Hid : render_ampm tp st = st)
      by (unfold render_ampm; rewrite He; reflexivity).
    rewrite !Hid. reflexivity.
Qed.

Lemma render_ampm_ext tp a b :
  ampmElement a = ampmElement b ->
  ampmElement (render_ampm tp a) = ampmElement (render_ampm tp b).
Proof.
  intros H. unfold render_ampm. rewrite H.
  destruct (ampmElement b) eqn:Hb; [reflexivity|]. rewrite Hb. exact H.
Qed.

Lemma render_ampmElement now tp st :
  ampmElement (render now tp st) = ampmElement (render_ampm tp st).
Proof.
  unfold render. cbn [ampmElement]. rewrite entries_by_position.
  apply render_ampm_ext, loop_ampm.
Qed.

(** X2. Rendering the same digits a second time does nothing: no
    position flips, no callback is scheduled, and the elements, the
    indicator and the saved string are as the first render left them. *)
Theorem render_same_time_again now now' tp st :
  single_chars tp ->
  let st1 := render now tp st in
  changedPositions st1 tp = []
  /\ timeouts (render now' tp st1) = timeouts st1
  /\ (forall key, clockElements (render now' tp st1) key = clockElements st1 key)
  /\ ampmElement (render now' tp st1) = ampmElement st1
  /\ previousTime (render now' tp st1) = previousTime st1.
Proof.
  intros Htp st1.
  assert (Hun : forall key, changed st1 tp (position key) key = false)
    by (intros key; apply unchanged_after_render, Htp).
  split; [|split; [|split; [|split]]].
  - rewrite changedPositions_keys, no_keys_changed by exact Hun. reflexivity.
  - rewrite render_timeouts, no_keys_changed by exact Hun. apply app_nil_r.
  - intros key. rewrite render_elements. unfold rendered. rewrite Hun.
    destruct (clockElements st1 key); reflexivity.
  - rewrite (render_ampmElement now' tp st1).
    rewrite (render_ampm_ext tp st1 (render_ampm tp st) (render_ampmElement now tp st)).
    rewrite render_ampm_twice. symmetry. apply render_ampmElement.
  - reflexivity.
Qed.

End RendererIdempotence.

Lemma render_same_time_again_witness :
  Renderer.changedPositions
    (Renderer.render 0 (Renderer.digits "1" "3" "0" "5" "0" "9" "") Renderer.mounted)
    (Renderer.digits "1" "3" "0" "5" "0" "9" "") = [].
Proof.
  refine (proj1 (render_same_time_again 0 1000
            (Renderer.digits "1" "3" "0" "5" "0" "9" "") Renderer.mounted _)).
  intros key. destruct key; reflexivity.
Defined.

(** ** The renderer: every flip ends *)

Section FlipsEnd.
Import Clock Renderer.

Lemma due_by_later t t' st : (t <= t')%Z -> due_by t st -> due_by t' st.
Proof. intros Hle H e He. specialize (H e He). lia. Qed.

Lemma run_timeouts_pending now st e :
  e ∈ timeouts (run_timeouts now st) <-> e ∈ timeouts st /\ ~ (e.1 <= now)%Z.
Proof.
  unfold run_timeouts. cbn [timeouts]. rewrite list_elem_of_filter. tauto.
Qed.

Lemma run_timeouts_due_by now t st : due_by t st -> due_by t (run_timeouts now st).
Proof. intros H e He. apply run_timeouts_pending in He as [He _]. apply H, He. Qed.

Lemma render_due_by now tp st :
  due_by (now + duration) st -> due_by (now + duration) (render now tp st).
Proof.
  intros H e He. rewrite render_timeouts in He. apply elem_of_app in He as [He|He].
  - apply H, He.
  - apply list_elem_of_In, in_map_iff in He as (key & <- & _). cbn. lia.
Qed.

Lemma run_timeouts_armed now st : armed st -> armed (run_timeouts now st).
Proof.
  intros Harmed key el Hel Hflip. rewrite run_timeouts_elements in Hel.
  set (due := filter (fun t => (t.1 <= now)%Z) (timeouts st)) in *.
  destruct (decide (key ∈ map snd due)) as [Hin|Hout].
  - destruct (expired_off (map snd due) st key Hin el Hel Hflip).
  - rewrite expired_other in Hel by exact Hout.
    destruct (Harmed key el Hel Hflip) as [t Ht]. exists t.
    apply run_timeouts_pending. split; [exact Ht|]. intros Hle. apply Hout.
    apply list_elem_of_In, in_map_iff. exists (t, key). split; [reflexivity|].
    apply list_elem_of_In, list_elem_of_filter. split; [exact Hle|exact Ht].
Qed.

Lemma render_armed now tp st : armed st -> armed (render now tp st).
Proof.
  intros Harmed key el Hel Hflip. rewrite render_elements in Hel.
  unfold rendered in Hel.
  destruct (clockElements st key) as [old|] eqn:Hold; [|discriminate].
  destruct (changed st tp (position key) key) eqn:Hc.
  - exists (now + duration)%Z. rewrite render_timeouts. apply elem_of_app. right.
    apply list_elem_of_In, in_map_iff. exists key. split; [reflexivity|].
    apply list_elem_of_In, list_elem_of_filter. split; [exact Hc|apply key_in_keys].
  - injection Hel as <-. destruct (Harmed key old Hold Hflip) as [t Ht].
    exists t. rewrite render_timeouts. apply elem_of_app. left. exact Ht.
Qed.

(** Once every waiting callback has run, no element carries the class. *)
Lemma all_run_off t st key : armed st -> due_by t st -> isFlipping key t st = false.
Proof.
  intros Harmed Hdue. unfold isFlipping. rewrite run_timeouts_elements.
  set (due := filter (fun e => (e.1 <= t)%Z) (timeouts st)).
  destruct (clockElements (fold_left expire (map snd due) st) key) as [el|] eqn:Hel;
    [|reflexivity].
  apply bool_decide_eq_false. intros Hflip.
  destruct (decide (key ∈ map snd due)) as [Hin|Hout].
  - exact (expired_off (map snd due) st key Hin el Hel Hflip).
  - rewrite expired_other in Hel by exact Hout.
    destruct (Harmed key el Hel Hflip) as [t' Ht']. apply Hout.
    apply list_elem_of_In, in_map_iff. exists (t', key). split; [reflexivity|].
    apply list_elem_of_In, list_elem_of_filter. split; [apply (Hdue _ Ht')|exact Ht'].
Qed.

Lemma render_at_invariant T now tp st :
  (T <= now)%Z -> armed st -> due_by (T + duration) st ->
  armed (render_at now tp st) /\ due_by (now + duration) (render_at now tp st).
Proof.
  intros Hle Harmed Hdue. unfold render_at. split.
  - apply render_armed, run_timeouts_armed, Harmed.
  - apply render_due_by, run_timeouts_due_by.
    apply (due_by_later (T + duration)); [lia|exact Hdue].
Qed.

(** X3. No flip outlasts the animation: after any run of renders in
    chronological order, from a state where each flipping element has
    its callback waiting and every callback is due within [duration] of
    [T], no element carries the animation class from [duration] after
    the last render on. *)
Theorem flips_end_after_duration T calls st :
  armed st -> due_by (T + duration) st -> chronological T calls ->
  forall key t,
    (last_instant T calls + duration <= t)%Z ->
    isFlipping key t (render_all calls st) = false.
Proof.
  revert T st. induction calls as [|call calls IH]; intros T st Harmed Hdue Hchron key t Ht.
  - cbn in *. apply all_run_off; [exact Harmed|].
    apply (due_by_later (T + duration)); [exact Ht|exact Hdue].
  - destruct Hchron as [Hle Hchron]. cbn [render_all fold_left].
    destruct (render_at_invariant T call.1 call.2 st Hle Harmed Hdue) as [Ha Hd].
    apply (IH call.1 _ Ha Hd Hchron).
    unfold last_instant in *. cbn [map] in Ht. rewrite last_cons in Ht. exact Ht.
Qed.

End FlipsEnd.

Lemma flips_end_after_duration_witness :
  Renderer.isFlipping Renderer.k_s2 900
    (Renderer.render_all
       [(0%Z, Renderer.digits "0" "0" "0" "0" "0" "1" "");
        (300%Z, Renderer.digits "0" "0" "0" "0" "0" "2" "")]
       Renderer.mounted) = false.
Proof.
  apply (flips_end_after_duration 0).
  - intros key el Hel Hin.
    apply (bool_decide_pack _) in Hin.
    destruct key; vm_compute in Hel; injection Hel as <-; vm_compute in Hin;
      destruct Hin.
  - intros e He. vm_compute in He. apply elem_of_nil in He. contradiction.
  - cbn. lia.
  - vm_compute. discriminate.
Defined.

(** ** The renderer: registering the elements *)

Section InitClock.
Import Clock Renderer.

Lemma register_loop (found : Key -> option Element) ks els key :
  fold_left (fun (els : Key -> option Element) key =>
               match found key with
               | Some element => <[key := Some element]> els
               | None => els
               end) ks els key
  = if decide (key ∈ ks)
    then match found key with Some element => Some element | None => els key end
    else els key.
Proof.
  revert els. induction ks as [|k ks IH]; intros els.
  - cbn. destruct (decide (key ∈ [])) as [Hin|]; [|reflexivity].
    apply elem_of_nil in Hin. contradiction.
  - cbn [fold_left]. rewrite IH.
    destruct (decide (key ∈ ks)) as [Hin|Hout].
    + destruct (decide (key ∈ k :: ks)) as [_|Hn];
        [|exfalso; apply Hn; right; exact Hin].
      destruct (found key) eqn:Hf; [reflexivity|].
      destruct (found k) eqn:Hk; [|reflexivity].
      apply fn_lookup_insert_ne. intros ->. congruence.
    + destruct (decide (key ∈ k :: ks)) as [Hin'|Hout'].
      * apply elem_of_cons in Hin' as [->|Hin']; [|contradiction].
        destruct (found k); [apply fn_lookup_insert|reflexivity].
      * assert (k <> key) by (intros ->; apply Hout'; left).
        destruct (found k); [apply fn_lookup_insert_ne; assumption|reflexivity].
Qed.

(** X4. [initClock] registers under each key the element the page has
    for it and keeps what was registered before for a key the page has
    no element for; it replaces the indicator and touches neither the
    saved string nor the waiting callbacks.  When the page has the six
    elements, every key is registered. *)
Theorem initClock_registers found indicator st :
  (forall key,
     clockElements (initClock found indicator st) key
     = match found key with
       | Some element => Some element
       | None => clockElements st key
       end)
  /\ ampmElement (initClock found indicator st) = indicator
  /\ previousTime (initClock found indicator st) = previousTime st
  /\ timeouts (initClock found indicator st) = timeouts st
  /\ ((forall key, is_Some (found key)) -> all_mounted (initClock found indicator st)).
Proof.
  assert (Hkeys : forall key,
            clockElements (initClock found indicator st) key
            = match found key with
              | Some element => Some element
              | None => clockElements st key
              end).
  { intros key. unfold initClock. cbn [clockElements]. rewrite register_loop.
    destruct (decide (key ∈ keys)) as [_|Hn]; [reflexivity|].
    destruct (Hn (key_in_keys key)). }
  split; [exact Hkeys|]. repeat split.
  intros Hall key. rewrite Hkeys. destruct (Hall key) as [el ->]. eauto.
Qed.

(** X5. A render changes no class of a digit element other than the
    animation class, and no class of the indicator other than [show];
    it neither adds nor drops an element. *)
Theorem render_touches_only_its_classes now tp st :
  (forall key,
     match clockElements (render now tp st) key, clockElements st key with
     | Some el, Some old =>
         forall c, c <> flip_animation -> c ∈ classList el <-> c ∈ classList old
     | None, None => True
     | _, _ => False
     end)
  /\ match ampmElement (render now tp st), ampmElement st with
     | Some el, Some old =>
         forall c, c <> show -> c ∈ classList el <-> c ∈ classList old
     | None, None => True
     | _, _ => False
     end.
Proof.
  split.
  - intros key. rewrite render_elements. unfold rendered.
    destruct (clockElements st key) as [old|]; [|exact I].
    destruct (changed st tp (position key) key); [|tauto].
    intros c Hc. cbn. rewrite elem_of_union, elem_of_difference, !elem_of_singleton.
    tauto.
  - rewrite render_ampmElement. unfold render_ampm.
    destruct (ampmElement st) as [old|] eqn:Hold; [|rewrite Hold; exact I].
    cbn. intros c Hc. destruct (ampm tp); cbn.
    + rewrite elem_of_difference, elem_of_singleton. tauto.
    + rewrite elem_of_union, elem_of_singleton. tauto.
Qed.

End InitClock.

Lemma initClock_registers_witness :
  Renderer.all_mounted
    (Renderer.initClock (fun _ => Some Renderer.blank) None Renderer.initial).
Proof.
  apply (initClock_registers (fun _ => Some Renderer.blank) None Renderer.initial).
  intros key. eauto.
Defined.

(** ** Settings: saving and loading *)

Section SettingsStorage.
Import Settings.

Lemma loadSettings_cases rt :
  loadSettings rt = DEFAULTS rt
  \/ exists parsed, loadSettings rt = spread_of parsed ∪ DEFAULTS rt.
Proof.
  unfold loadSettings, loadSettings_try.
  destruct (getItem rt storage_key) as [[[|c stored]|]|e]; cbn;
    try (left; apply merge_nothing).
  destruct (JSON_parse rt (String c stored)) as [parsed|e]; cbn;
    [right; eauto|left; apply merge_nothing].
Qed.

Lemma loadSettings_covers_defaults rt key :
  loadSettings rt !! key = None -> DEFAULTS rt !! key = None.
Proof.
  destruct (loadSettings_cases rt) as [->|[parsed ->]]; [auto|].
  intros H. apply lookup_union_None in H. tauto.
Qed.

Lemma load_after_save_eq c partial s :
  read_error s = None -> write_error s = None ->
  stringify c (JObject (partial ∪ loadSettings (runtime_on c s))) <> "" ->
  parse c (stringify c (JObject (partial ∪ loadSettings (runtime_on c s))))
  = Normal (JObject (partial ∪ loadSettings (runtime_on c s))) ->
  loadSettings (runtime_on c (saveSettings c partial s))
  = partial ∪ loadSettings (runtime_on c s).
Proof.
  intros Hr Hw Hne Hparse.
  set (updated := partial ∪ loadSettings (runtime_on c s)) in *.
  assert (Hsaved : saveSettings c partial s
                   = mkStorage (<[storage_key := stringify c (JObject updated)]> (items s))
                               (read_error s) (write_error s)).
  { unfold saveSettings, saveSettings_try, storage_setItem. rewrite Hw. reflexivity. }
  rewrite Hsaved.
  rewrite (loadSettings_stored _ (stringify c (JObject updated)) (JObject updated)).
  - cbn [spread_of]. apply map_eq. intros key.
    destruct (updated !! key) as [v|] eqn:Hv.
    + apply lookup_union_Some_l, Hv.
    + rewrite lookup_union_r by exact Hv.
      unfold updated in Hv. apply lookup_union_None in Hv as [_ Hv].
      apply (loadSettings_covers_defaults (runtime_on c s)) in Hv. exact Hv.
  - cbn. unfold storage_getItem. cbn. rewrite Hr, lookup_insert_eq. reflexivity.
  - exact Hne.
  - exact Hparse.
Qed.

(** X6. Saving and loading round-trip: when storage can be read and
    written and the JSON text of the merged object parses back to it,
    [loadSettings] after [saveSettings(partial)] answers [partial]
    spread over what [loadSettings] answered before, and no other
    storage item is touched. *)
Theorem load_after_save c partial s :
  read_error s = None -> write_error s = None ->
  stringify c (JObject (partial ∪ loadSettings (runtime_on c s))) <> "" ->
  parse c (stringify c (JObject (partial ∪ loadSettings (runtime_on c s))))
  = Normal (JObject (partial ∪ loadSettings (runtime_on c s))) ->
  loadSettings (runtime_on c (saveSettings c partial s))
  = partial ∪ loadSettings (runtime_on c s)
  /\ (forall k, k <> storage_key -> items (saveSettings c partial s) !! k = items s !! k).
Proof.
  intros Hr Hw Hne Hparse. split; [apply load_after_save_eq; assumption|].
  intros k Hk. unfold saveSettings, saveSettings_try, storage_setItem. rewrite Hw.
  cbn. apply lookup_insert_ne. congruence.
Qed.

(** X7. A save that cannot write changes nothing, and a save on storage
    that cannot be read still writes: it stores [partial] spread over
    the defaults. *)
Theorem save_with_failing_storage c partial s :
  (forall e, write_error s = Some e -> saveSettings c partial s = s)
  /\ (forall e, read_error s = Some e -> write_error s = None ->
      items (saveSettings c partial s) !! storage_key
      = Some (stringify c (JObject (partial ∪ DEFAULTS (runtime_on c s))))).
Proof.
  split.
  - intros e Hw. unfold saveSettings, saveSettings_try, storage_setItem.
    rewrite Hw. reflexivity.
  - intros e Hr Hw. unfold saveSettings, saveSettings_try, storage_setItem.
    rewrite Hw. cbn. rewrite lookup_insert_eq. do 3 f_equal.
    unfold merge. f_equal.
    unfold loadSettings, loadSettings_try. cbn. unfold storage_getItem.
    rewrite Hr. cbn. apply merge_nothing.
Qed.

Lemma String_of_nat_head i :
  exists c rest, String_of (Z.of_nat i) = String c rest
                 /\ (48 <= nat_of_ascii c <= 57).
Proof.
  unfold String_of. destruct (Z.of_nat i) as [|p|p] eqn:Hi; [| |lia].
  - exists "0"%char, EmptyString. split; [reflexivity|compute; lia].
  - cbn. destruct (Pos.to_uint p) as [|d|d|d|d|d|d|d|d|d|d]; cbn;
      eexists _, _; (split; [reflexivity|compute; lia]).
Qed.

Lemma indexed_no_preference {A} (f : A -> JSON) (l : list A) key :
  key ∈ preference_keys -> indexed f l !! key = None.
Proof.
  intros Hk. unfold indexed. apply not_elem_of_list_to_map_1.
  intros Hin. apply list_elem_of_fmap in Hin as ([k v] & -> & Hin). cbn in Hk.
  apply elem_of_lookup_imap in Hin as (i & x & [= -> ->] & _).
  destruct (String_of_nat_head i) as (c & rest & Hs & Hc). rewrite Hs in Hk.
  unfold preference_keys in Hk. rewrite !elem_of_cons, elem_of_nil in Hk.
  destruct Hk as [Hk|[Hk|[Hk|[Hk|[Hk|[]]]]]]; injection Hk as -> _; compute in Hc; lia.
Qed.

(** X8. A stored value that parses to something other than an object
    overrides no preference: [null], a number or a boolean give the
    defaults, and a string or an array adds its index keys and leaves
    each of the five preferences at its default. *)
Theorem stored_non_object_keeps_defaults rt stored parsed :
  getItem rt storage_key = Normal (Some stored) -> stored <> "" ->
  JSON_parse rt stored = Normal parsed ->
  not_an_object parsed ->
  (forall key, key ∈ preference_keys -> loadSettings rt !! key = DEFAULTS rt !! key)
  /\ match parsed with
     | JNull | JBool _ | JNumber _ => loadSettings rt = DEFAULTS rt
     | _ => True
     end.
Proof.
  intros Hg Hne Hp Hno. rewrite (loadSettings_stored rt stored parsed Hg Hne Hp).
  split.
  - intros key Hk. apply lookup_union_r.
    destruct parsed; cbn [spread_of]; try apply lookup_empty;
      try (apply indexed_no_preference, Hk). destruct Hno.
  - destruct parsed; cbn [spread_of]; try exact I; apply (left_id ∅ (∪)).
Qed.

End SettingsStorage.

Lemma load_after_save_witness :
  let s := Settings.mkStorage ∅ None None in
  Settings.loadSettings
    (Settings.runtime_on Settings.theme_codec
       (Settings.saveSettings Settings.theme_codec
          {[ "theme" := Settings.JString "neon" ]} s))
  !! "theme" = Some (Settings.JString "neon").
Proof.
  intros s.
  destruct (load_after_save Settings.theme_codec
              {[ "theme" := Settings.JString "neon" ]} s) as [Hload _].
  - reflexivity.
  - reflexivity.
  - intros H. vm_compute in H. discriminate H.
  - vm_compute. reflexivity.
  - rewrite Hload. reflexivity.
Defined.

Lemma save_with_failing_storage_witness :
  let s := Settings.mkStorage ∅ None (Some SecurityError) in
  Settings.saveSettings Settings.theme_codec {[ "theme" := Settings.JString "neon" ]} s
  = s.
Proof.
  intros s.
  exact (proj1 (save_with_failing_storage Settings.theme_codec
                  {[ "theme" := Settings.JString "neon" ]} s) SecurityError eq_refl).
Defined.

Lemma stored_non_object_keeps_defaults_witness :
  let rt := Settings.mkRuntime (fun _ => Normal (Some "[1]"))
              (fun _ => Normal (Settings.JArray [Settings.JNumber 1])) "UTC" in
  Settings.loadSettings rt !! "theme" = Settings.DEFAULTS rt !! "theme".
Proof.
  intros rt.
  apply (proj1 (stored_non_object_keeps_defaults rt "[1]"
                  (Settings.JArray [Settings.JNumber 1])
                  eq_refl ltac:(discriminate) eq_refl I)).
  unfold Settings.preference_keys. repeat constructor.
Defined.

(** ** The timezone catalogue *)

Section TimezoneSearch.
Import Timezone.

Variable ops : StringOps.
Variable timezones : list TimezoneInfo.

(** X9. A search never answers more than ten entries, and what it
    answers is taken from the catalogue in the catalogue's order. *)
Theorem searchTimezones_bounded query :
  length (searchTimezones ops timezones query) <= 10
  /\ searchTimezones ops timezones query `sublist_of` timezones.
Proof.
  unfold searchTimezones. destruct (trim ops query) as [|c rest].
  - split; [rewrite length_take; lia|apply sublist_take].
  - split; [rewrite length_take; lia|].
    etransitivity; [apply sublist_take|apply sublist_filter].
Qed.

(** X10. For a query that is not blank, every entry answered has the
    lower-cased query inside its lower-cased label or identifier; and
    when at most ten entries of the catalogue do, the answer is exactly
    those entries. *)
Theorem searchTimezones_matching query :
  trim ops query <> "" ->
  let hit := fun tz => matches ops (toLowerCase ops query) tz = true in
  (forall tz, tz ∈ searchTimezones ops timezones query -> tz ∈ timezones /\ hit tz)
  /\ (length (filter hit timezones) <= 10 ->
      searchTimezones ops timezones query = filter hit timezones).
Proof.
  intros Hq hit. unfold searchTimezones.
  destruct (trim ops query) as [|c rest]; [congruence|]. cbv zeta. split.
  - intros tz Hin. apply elem_of_take in Hin as (i & Hi & _).
    apply list_elem_of_lookup_2 in Hi. apply list_elem_of_filter in Hi. tauto.
  - intros Hle. apply take_ge. exact Hle.
Qed.

(** X11. [getTimezoneInfo] answers the first entry of the catalogue
    with the identifier asked for, and [null] exactly when no entry has
    it. *)
Theorem getTimezoneInfo_lookup timezoneId :
  (forall tz, getTimezoneInfo timezones timezoneId = Some tz ->
     tz_id tz = timezoneId
     /\ exists before after,
          timezones = (before ++ tz :: after)%list
          /\ forall other, other ∈ before -> tz_id other <> timezoneId)
  /\ (getTimezoneInfo timezones timezoneId = None
      <-> forall tz, tz ∈ timezones -> tz_id tz <> timezoneId).
Proof.
  unfold getTimezoneInfo. induction timezones as [|first rest [IHsome IHnone]].
  - split; [discriminate|]. split; [|reflexivity].
    intros _ tz Hin. apply elem_of_nil in Hin. contradiction.
  - cbn [List.find]. destruct (decide (tz_id first = timezoneId)) as [Heq|Hne].
    + rewrite bool_decide_eq_true_2 by exact Heq. split.
      * intros tz [= <-]. split; [exact Heq|]. exists [], rest.
        split; [reflexivity|]. intros other Hin. apply elem_of_nil in Hin. contradiction.
      * split; [discriminate|]. intros H. exfalso. apply (H first); [left|exact Heq].
    + rewrite bool_decide_eq_false_2 by exact Hne. split.
      * intros tz Hfind. destruct (IHsome tz Hfind) as (Hid & before & after & -> & Hb).
        split; [exact Hid|]. exists (first :: before), after. split; [reflexivity|].
        intros other Hin. apply elem_of_cons in Hin as [->|Hin]; [exact Hne|apply Hb, Hin].
      * rewrite IHnone. split.
        -- intros H tz Hin. apply elem_of_cons in Hin as [->|Hin]; [exact Hne|apply H, Hin].
        -- intros H tz Hin. apply H. right. exact Hin.
Qed.

End TimezoneSearch.

Lemma searchTimezones_matching_witness :
  Timezone.searchTimezones Timezone.ascii_ops Timezone.fallback_timezones "TOKYO"
  = [Timezone.mkTimezone "Asia/Tokyo" "Tokyo (JST)"].
Proof.
  refine (eq_trans (proj2 (searchTimezones_matching Timezone.ascii_ops
            Timezone.fallback_timezones "TOKYO" _) _) _).
  - discriminate.
  - vm_compute. lia.
  - vm_compute. reflexivity.
Defined.

Lemma getTimezoneInfo_lookup_witness :
  Timezone.tz_id (Timezone.mkTimezone "Asia/Tokyo" "Tokyo (JST)") = "Asia/Tokyo".
Proof.
  exact (proj1 (proj1 (getTimezoneInfo_lookup Timezone.fallback_timezones "Asia/Tokyo")
                  (Timezone.mkTimezone "Asia/Tokyo" "Tokyo (JST)") eq_refl)).
Defined.

(** ** The timezone picker *)

Section TimezonePicker.
Import Timezone.

Variable ops : StringOps.
Variable timezones : list TimezoneInfo.

Lemma updateSelection_length sel opts :
  length (updateSelection sel opts) = length opts.
Proof. apply length_imap. Qed.

Lemma updateSelection_lookup sel opts i :
  updateSelection sel opts !! i
  = (fun o => mkOption (opt_text o) (opt_timezone o) (bool_decide (Z.of_nat i = sel)))
      <$> opts !! i.
Proof. apply list_lookup_imap. Qed.

Lemma renderDropdown_nonempty results p : 0 < length (options (renderDropdown results p)).
Proof.
  unfold renderDropdown. destruct results as [|tz results]; cbn; lia.
Qed.

Lemma keydown_in_range key p :
  highlight_in_range p -> highlight_in_range (keydown timezones key p).1.
Proof.
  unfold highlight_in_range. intros H.
  destruct key; cbn; rewrite ?updateSelection_length; try lia.
  destruct (0 <=? selectedIndex p)%Z; [|exact H].
  destruct (option_at (options p) (selectedIndex p)); exact H.
Qed.

Lemma picker_step_in_range p ev :
  highlight_in_range p -> highlight_in_range (picker_step ops timezones p ev).
Proof.
  destruct ev as [query|key]; [|apply keydown_in_range].
  intros _. unfold highlight_in_range, picker_step, on_input. cbn [selectedIndex options].
  pose proof (renderDropdown_nonempty (searchTimezones ops timezones query)
                (mkPicker query (options p) (dropdown_show p) (selectedIndex p))).
  lia.
Qed.

(** X12. Typing and key presses keep the highlight on an option of the
    dropdown or nowhere: [selectedIndex] stays between -1 and the last
    index; and after an arrow key the option carrying [selected] is the
    one at [selectedIndex]. *)
Theorem highlight_stays_in_range events p :
  highlight_in_range p ->
  highlight_in_range (fold_left (picker_step ops timezones) events p)
  /\ (forall key, key = ArrowDown \/ key = ArrowUp ->
      let p' := (keydown timezones key p).1 in
      forall i o, options p' !! i = Some o ->
                  opt_selected o = true <-> Z.of_nat i = selectedIndex p').
Proof.
  intros Hp. split.
  - revert p Hp. induction events as [|ev events IH]; intros p Hp; [exact Hp|].
    cbn [fold_left]. apply IH, picker_step_in_range, Hp.
  - intros key [->| ->] p' i o; cbn; rewrite updateSelection_lookup;
      destruct (options p !! i); cbn; intros [= <-]; cbn;
      apply bool_decide_eq_true.
Qed.

Lemma press_down_spec n p :
  (selectedIndex p < Z.of_nat (length (options p)))%Z ->
  selectedIndex (press timezones ArrowDown n p)
  = Z.min (selectedIndex p + Z.of_nat n) (Z.of_nat (length (options p)) - 1)
  /\ length (options (press timezones ArrowDown n p)) = length (options p)
  /\ forall i, opt_timezone <$> options (press timezones ArrowDown n p) !! i
               = opt_timezone <$> options p !! i.
Proof.
  intros Hlt. induction n as [|n (IHsel & IHlen & IHtz)].
  - cbn. split; [lia|]. split; reflexivity.
  - cbn [press keydown fst selectedIndex options].
    rewrite updateSelection_length, IHsel, IHlen. split; [lia|]. split; [reflexivity|].
    intros i. rewrite updateSelection_lookup, <- IHtz.
    destruct (options _ !! i); reflexivity.
Qed.

(** X13. Typing a query, pressing ArrowDown [k + 1] times and then
    Enter picks the result in row [k]: its identifier is handed on, the
    dropdown is hidden, and the box shows the label the catalogue has
    for that identifier. *)
Theorem arrow_down_then_enter query p k tz :
  searchTimezones ops timezones query !! k = Some tz ->
  let p1 := on_input ops timezones query p in
  let p2 := press timezones ArrowDown (S k) p1 in
  (keydown timezones Enter p2).2 = Some (Some (tz_id tz))
  /\ dropdown_show (keydown timezones Enter p2).1 = false
  /\ input_value (keydown timezones Enter p2).1
     = match getTimezoneInfo timezones (tz_id tz) with
       | Some timezoneInfo => tz_label timezoneInfo
       | None => tz_id tz
       end.
Proof.
  intros Hk p1 p2.
  set (results := searchTimezones ops timezones query) in *.
  assert (Hopts : options p1
                  = map (fun tz => mkOption (tz_label tz) (Some (tz_id tz)) false) results).
  { unfold p1, on_input, renderDropdown. cbn [options]. fold results.
    destruct results; [discriminate|reflexivity]. }
  assert (Hlen : length (options p1) = length results)
    by (rewrite Hopts; apply length_map).
  assert (Hklt : k < length results) by (apply lookup_lt_Some in Hk; exact Hk).
  destruct (press_down_spec (S k) p1) as (Hsel & Hlen2 & Htz).
  { unfold p1, on_input. cbn [selectedIndex]. lia. }
  fold p2 in Hsel, Hlen2, Htz.
  assert (Hsel2 : selectedIndex p2 = Z.of_nat k).
  { rewrite Hsel. unfold p1 at 1, on_input. cbn [selectedIndex]. lia. }
  assert (Hat : exists o, option_at (options p2) (selectedIndex p2) = Some o
                          /\ opt_timezone o = Some (tz_id tz)).
  { unfold option_at. rewrite Hsel2.
    destruct (Z.ltb_spec (Z.of_nat k) 0) as [Hneg|_]; [lia|]. rewrite Nat2Z.id.
    specialize (Htz k). rewrite Hopts in Htz.
    change (map ?f ?l) with (f <$> l) in Htz.
    rewrite list_lookup_fmap, Hk in Htz.
    destruct (options p2 !! k) as [o|]; cbn in Htz; [|discriminate].
    exists o. split; [reflexivity|]. congruence. }
  destruct Hat as (o & Hat & Ho).
  cbn [keydown]. rewrite Hat.
  destruct (Z.leb_spec 0 (selectedIndex p2)) as [_|Hneg]; [|lia].
  cbn. rewrite Ho. auto.
Qed.

(** X14. When a query has no result, the dropdown shows the row "No
    timezones found", which carries the option class and no
    identifier: ArrowDown highlights it, and Enter then calls
    [selectTimezone] with [undefined], the box reading "undefined". *)
Theorem placeholder_row_is_selectable query p :
  searchTimezones ops timezones query = [] ->
  let p1 := on_input ops timezones query p in
  let p2 := (keydown timezones ArrowDown p1).1 in
  options p1 = [mkOption "No timezones found" None false]
  /\ selectedIndex p2 = 0%Z
  /\ keydown timezones Enter p2
     = (mkPicker "undefined" [mkOption "No timezones found" None true] false 0,
        Some None).
Proof.
  intros Hnone p1 p2. unfold p2, p1, on_input. rewrite Hnone. cbn. auto.
Qed.

End TimezonePicker.

Lemma highlight_stays_in_range_witness :
  Timezone.highlight_in_range
    (fold_left (Timezone.picker_step Timezone.ascii_ops Timezone.fallback_timezones)
       [Timezone.Typed "a"; Timezone.Pressed Timezone.ArrowDown;
        Timezone.Pressed Timezone.ArrowUp; Timezone.Pressed Timezone.ArrowUp]
       Timezone.empty_picker).
Proof.
  apply (highlight_stays_in_range Timezone.ascii_ops Timezone.fallback_timezones).
  unfold Timezone.highlight_in_range. cbn. lia.
Defined.

Lemma arrow_down_then_enter_witness :
  (Timezone.keydown Timezone.fallback_timezones Timezone.Enter
     (Timezone.press Timezone.fallback_timezones Timezone.ArrowDown 2
        (Timezone.on_input Timezone.ascii_ops Timezone.fallback_timezones "america"
           Timezone.empty_picker))).2
  = Some (Some "America/Chicago").
Proof.
  apply (arrow_down_then_enter Timezone.ascii_ops Timezone.fallback_timezones
           "america" Timezone.empty_picker 1
           (Timezone.mkTimezone "America/Chicago" "Chicago (Central Time)")).
  vm_compute. reflexivity.
Defined.

Lemma placeholder_row_is_selectable_witness :
  (Timezone.keydown Timezone.fallback_timezones Timezone.Enter
     (Timezone.keydown Timezone.fallback_timezones Timezone.ArrowDown
        (Timezone.on_input Timezone.ascii_ops Timezone.fallback_timezones "mars"
           Timezone.empty_picker)).1).2
  = Some None.
Proof.
  pose proof (placeholder_row_is_selectable Timezone.ascii_ops
                Timezone.fallback_timezones "mars" Timezone.empty_picker)
    as Hrow.
  cbv zeta in Hrow. destruct Hrow as (_ & _ & Henter); [vm_compute; reflexivity|].
  rewrite Henter. reflexivity.
Defined.

(** ** Themes and the primary colour *)

Section ThemeFacts.
Import Theme.

Lemma effective_theme_valid themeName :
  effective_theme themeName = "dark" \/ effective_theme themeName = "light"
  \/ effective_theme themeName = "neon".
Proof.
  unfold effective_theme. destruct (bool_decide_reflect (themeName ∈ validThemes)) as [Hin|_];
    [|auto].
  unfold validThemes in Hin. rewrite !elem_of_cons, elem_of_nil in Hin. tauto.
Qed.

Lemma applyTheme_classes themeName page :
  body_classes (applyTheme themeName page)
  = body_classes page ∖ {[theme_class "dark"]} ∖ {[theme_class "light"]}
      ∖ {[theme_class "neon"]} ∪ {[theme_class (effective_theme themeName)]}.
Proof.
  unfold applyTheme, updateMetaThemeColor. cbn [meta_theme_color].
  destruct (meta_theme_color page); reflexivity.
Qed.

Lemma theme_class_inj a b : theme_class a = theme_class b -> a = b.
Proof. unfold theme_class. intros H. simpl in H. injection H. auto. Qed.

Lemma theme_class_in_applied themeName page theme :
  theme ∈ validThemes ->
  theme_class theme ∈ body_classes (applyTheme themeName page)
  <-> theme = effective_theme themeName.
Proof.
  intros Hin. rewrite applyTheme_classes.
  rewrite elem_of_union, !elem_of_difference, !elem_of_singleton.
  unfold validThemes in Hin. rewrite !elem_of_cons, elem_of_nil in Hin.
  split.
  - intros [(((_ & Hd) & Hl) & Hn)|Heq]; [|apply theme_class_inj, Heq].
    destruct Hin as [->|[->|[->|[]]]]; [destruct Hd|destruct Hl|destruct Hn]; reflexivity.
  - intros ->. right. reflexivity.
Qed.

(** X15. After [applyTheme] exactly one theme class is on [body], that
    of the theme asked for, or of 'dark' when the name is no theme;
    [getCurrentTheme] reads that theme back; the other classes of
    [body] and the style properties are untouched, and the [meta]
    element, when the page has one, holds the theme's colour. *)
Theorem applyTheme_sets_one_theme themeName page :
  let page' := applyTheme themeName page in
  getCurrentTheme page' = effective_theme themeName
  /\ (forall theme, theme ∈ validThemes ->
        theme_class theme ∈ body_classes page' <-> theme = effective_theme themeName)
  /\ (forall c, (forall theme, theme ∈ validThemes -> c <> theme_class theme) ->
        c ∈ body_classes page' <-> c ∈ body_classes page)
  /\ root_style page' = root_style page
  /\ meta_theme_color page'
     = match meta_theme_color page with
       | Some _ => themeColors !! effective_theme themeName
       | None => None
       end.
Proof.
  intros page'.
  assert (Hone := theme_class_in_applied themeName page). fold page' in Hone.
  assert (Hd : "dark" ∈ validThemes) by (unfold validThemes; repeat constructor).
  assert (Hl : "light" ∈ validThemes) by (unfold validThemes; repeat constructor).
  assert (Hn : "neon" ∈ validThemes) by (unfold validThemes; repeat constructor).
  split; [|split; [exact Hone|split; [|split]]].
  - unfold getCurrentTheme, validThemes. cbn [List.find].
    destruct (effective_theme_valid themeName) as [He|[He|He]]; rewrite He in *.
    + rewrite bool_decide_eq_true_2 by (apply Hone; [exact Hd|reflexivity]). reflexivity.
    + rewrite bool_decide_eq_false_2
        by (intros H; apply Hone in H; [discriminate|exact Hd]).
      rewrite bool_decide_eq_true_2 by (apply Hone; [exact Hl|reflexivity]). reflexivity.
    + rewrite bool_decide_eq_false_2
        by (intros H; apply Hone in H; [discriminate|exact Hd]).
      rewrite bool_decide_eq_false_2
        by (intros H; apply Hone in H; [discriminate|exact Hl]).
      rewrite bool_decide_eq_true_2 by (apply Hone; [exact Hn|reflexivity]). reflexivity.
  - intros c Hc. unfold page'. rewrite applyTheme_classes.
    rewrite elem_of_union, !elem_of_difference, !elem_of_singleton.
    pose proof (Hc "dark" Hd). pose proof (Hc "light" Hl). pose proof (Hc "neon" Hn).
    assert (c <> theme_class (effective_theme themeName))
      by (destruct (effective_theme_valid themeName) as [->|[-> | ->]]; assumption).
    tauto.
  - unfold page', applyTheme, updateMetaThemeColor. cbn [meta_theme_color].
    destruct (meta_theme_color page); reflexivity.
  - unfold page', applyTheme, updateMetaThemeColor. cbn [meta_theme_color].
    destruct (meta_theme_color page); [|reflexivity]. cbn [meta_theme_color].
    destruct (effective_theme_valid themeName) as [->|[-> | ->]]; reflexivity.
Qed.

Lemma hex_value_of_hex c :
  is_hex c = true -> exists d, hex_value c = Some d /\ (0 <= d <= 15)%Z.
Proof.
  unfold is_hex, hex_value. cbv zeta. set (n := nat_of_ascii c).
  destruct ((48 <=? n) && (n <=? 57))%nat eqn:H1.
  { intros _. eexists. split; [reflexivity|].
    apply andb_prop in H1 as [?%Nat.leb_le ?%Nat.leb_le]. lia. }
  destruct ((65 <=? n) && (n <=? 70))%nat eqn:H2.
  { intros _. eexists. split; [reflexivity|].
    apply andb_prop in H2 as [?%Nat.leb_le ?%Nat.leb_le]. lia. }
  destruct ((97 <=? n) && (n <=? 102))%nat eqn:H3.
  { intros _. eexists. split; [reflexivity|].
    apply andb_prop in H3 as [?%Nat.leb_le ?%Nat.leb_le]. lia. }
  discriminate.
Qed.

Lemma byte_of_hex a b :
  is_hex a = true -> is_hex b = true ->
  exists n, byte_of a b = Some n /\ (0 <= n <= 255)%Z
            /\ parseInt16 (String a (String b EmptyString)) = Some n.
Proof.
  intros Ha Hb. destruct (hex_value_of_hex a Ha) as (x & Hx & ?).
  destruct (hex_value_of_hex b Hb) as (y & Hy & ?).
  exists (16 * x + y)%Z. unfold byte_of. rewrite Hx, Hy.
  split; [reflexivity|]. split; [lia|].
  unfold parseInt16. rewrite Hx. cbn [hex_digits]. rewrite Hx, Hy. f_equal; lia.
Qed.

(** X16. [applyPrimary] leaves the page alone for a string that is no
    '#' followed by three or six hexadecimal digits.  For a valid
    colour it sets [--primary] to it and [--primary-text] to black or
    white: for six digits as the luminance test decides on the three
    bytes the digit pairs write, red, green and blue in that order,
    each in 0..255; and for three digits always to white, the third
    slice being empty. *)
Theorem applyPrimary_effect brighter hexColor page :
  (isValidHexColor hexColor = false -> applyPrimary brighter hexColor page = page)
  /\ (isValidHexColor hexColor = true ->
      let page' := applyPrimary brighter hexColor page in
      root_style page' !! "--primary" = Some hexColor
      /\ body_classes page' = body_classes page
      /\ meta_theme_color page' = meta_theme_color page
      /\ (String.length hexColor = 4 ->
          root_style page' !! "--primary-text" = Some "#ffffff")
      /\ (forall r1 r0 g1 g0 b1 b0,
            hexColor
            = String "#" (String r1 (String r0 (String g1 (String g0
                (String b1 (String b0 EmptyString)))))) ->
            exists r g b,
              byte_of r1 r0 = Some r /\ byte_of g1 g0 = Some g
              /\ byte_of b1 b0 = Some b
              /\ (0 <= r <= 255)%Z /\ (0 <= g <= 255)%Z /\ (0 <= b <= 255)%Z
              /\ root_style page' !! "--primary-text"
                 = Some (if brighter r g b then "#000000" else "#ffffff"))).
Proof.
  split; [intros Hv; unfold applyPrimary; rewrite Hv; reflexivity|].
  intros Hv page'. unfold page', applyPrimary. rewrite Hv. cbn [root_style body_classes meta_theme_color].
  split; [rewrite lookup_insert_ne by discriminate; apply lookup_insert_eq|].
  split; [reflexivity|]. split; [reflexivity|].
  rewrite lookup_insert_eq. split.
  - intros Hlen. destruct hexColor as [|h [|a [|b [|c [|d rest]]]]]; try discriminate.
    unfold getContrastColor, slice. cbn [substring Nat.sub].
    destruct (parseInt16 (String a (String b EmptyString)));
      destruct (parseInt16 (String c EmptyString)); reflexivity.
  - intros r1 r0 g1 g0 b1 b0 ->.
    unfold isValidHexColor in Hv.
    apply andb_prop in Hv as [_ Hv]. cbn [list_ascii_of_string forallb] in Hv.
    repeat (apply andb_prop in Hv as [? Hv]).
    destruct (byte_of_hex r1 r0) as (r & Hr & ? & Hpr); [assumption..|].
    destruct (byte_of_hex g1 g0) as (g & Hg & ? & Hpg); [assumption..|].
    destruct (byte_of_hex b1 b0) as (b & Hb & ? & Hpb); [assumption..|].
    exists r, g, b. repeat (split; [assumption|]).
    unfold getContrastColor, slice. cbn [substring Nat.sub].
    rewrite Hpr, Hpg, Hpb. destruct (brighter r g b); reflexivity.
Qed.

End ThemeFacts.

Lemma applyTheme_sets_one_theme_witness :
  Theme.theme_class "neon" ∈ Theme.body_classes (Theme.applyTheme "neon" Theme.plain_page).
Proof.
  apply (proj1 (proj2 (applyTheme_sets_one_theme "neon" Theme.plain_page)) "neon").
  - unfold Theme.validThemes. repeat constructor.
  - reflexivity.
Defined.

Lemma applyPrimary_effect_witness :
  Theme.root_style (Theme.applyPrimary Theme.exact_brighter "#ffff00" Theme.plain_page)
  !! "--primary-text" = Some "#000000"
  /\ Theme.root_style (Theme.applyPrimary Theme.exact_brighter "#0000ff" Theme.plain_page)
     !! "--primary-text" = Some "#ffffff"
  /\ Theme.root_style (Theme.applyPrimary Theme.exact_brighter "#fff" Theme.plain_page)
     !! "--primary-text" = Some "#ffffff".
Proof.
  split; [|split].
  - destruct (proj2 (applyPrimary_effect Theme.exact_brighter "#ffff00" Theme.plain_page)
                eq_refl) as (_ & _ & _ & _ & Hsix).
    destruct (Hsix "f" "f" "f" "f" "0" "0" eq_refl)%char
      as (r & g & b & Hr & Hg & Hb & _ & _ & _ & Htext).
    vm_compute in Hr, Hg, Hb.
    injection Hr as <-. injection Hg as <-. injection Hb as <-. exact Htext.
  - destruct (proj2 (applyPrimary_effect Theme.exact_brighter "#0000ff" Theme.plain_page)
                eq_refl) as (_ & _ & _ & _ & Hsix).
    destruct (Hsix "0" "0" "0" "0" "f" "f" eq_refl)%char
      as (r & g & b & Hr & Hg & Hb & _ & _ & _ & Htext).
    vm_compute in Hr, Hg, Hb.
    injection Hr as <-. injection Hg as <-. injection Hb as <-. exact Htext.
  - apply (proj2 (applyPrimary_effect Theme.exact_brighter "#fff" Theme.plain_page)
             eq_refl).
    reflexivity.
Defined.

(** ** The tick sound *)

Section SoundFacts.
Import Sound.

Lemma step_set_up_once st ev : set_up_once st -> set_up_once (step st ev).
Proof.
  unfold set_up_once. destruct st as [ctx buf en inter ld n k].
  destruct ev as [enabled contextOk|decoded|hidden audioOk]; cbn.
  - destruct inter, enabled, contextOk; cbn; intuition congruence.
  - destruct inter, ld; cbn; intuition congruence.
  - destruct inter, en, ctx, buf, hidden, audioOk; cbn; intuition congruence.
Qed.

Lemma run_set_up_once events st : set_up_once st -> set_up_once (run events st).
Proof.
  revert st. induction events as [|ev events IH]; intros st H; [exact H|].
  change (run (ev :: events) st) with (run events (step st ev)).
  apply IH, step_set_up_once, H.
Qed.

(** X17. Whatever is toggled, downloaded or ticked, [initSound] is
    called at most once: not at all before the first enabling toggle,
    and once from then on. *)
Theorem initSound_at_most_once events :
  let st := run events initial in
  initCalls st <= 1
  /\ (initCalls st = 1 <-> userHasInteracted st = true)
  /\ (userHasInteracted st = false -> played st = 0).
Proof.
  intros st. assert (H : set_up_once st) by (apply run_set_up_once; cbn; auto).
  unfold set_up_once in H. destruct (userHasInteracted st).
  - rewrite H. split; [lia|]. split; [tauto|discriminate].
  - destruct H as (-> & _ & _ & _ & ->). split; [lia|].
    split; [split; discriminate|reflexivity].
Qed.

Lemma step_failed_load st ev :
  userHasInteracted st = true -> loading st = false -> tickBuffer st = false ->
  userHasInteracted (step st ev) = true /\ loading (step st ev) = false
  /\ tickBuffer (step st ev) = false /\ played (step st ev) = played st.
Proof.
  destruct st as [ctx buf en inter ld n k]. cbn. intros -> -> ->.
  destruct ev as [enabled contextOk|decoded|hidden audioOk]; cbn.
  - destruct enabled; cbn; auto.
  - auto.
  - destruct en, ctx, hidden, audioOk; cbn; auto.
Qed.

(** X18. A failed set-up is final: once the first enabling toggle has
    been made and its download is over without a buffer (the context
    could not be built, or the download or the decoding failed), no
    toggle starts another one and no tick is ever played. *)
Theorem failed_load_is_final events st :
  userHasInteracted st = true -> loading st = false -> tickBuffer st = false ->
  played (run events st) = played st
  /\ tickBuffer (run events st) = false
  /\ initCalls (run events st) = initCalls st.
Proof.
  revert st. induction events as [|ev events IH]; intros st Hi Hl Hb; [auto|].
  change (run (ev :: events) st) with (run events (step st ev)).
  destruct (step_failed_load st ev Hi Hl Hb) as (Hi' & Hl' & Hb' & Hp).
  destruct (IH (step st ev) Hi' Hl' Hb') as (-> & -> & ->).
  split; [exact Hp|]. split; [reflexivity|].
  destruct st as [ctx buf en inter ld n k]. cbn in *. subst.
  destruct ev as [enabled contextOk|decoded|hidden audioOk]; cbn.
  - destruct enabled; reflexivity.
  - reflexivity.
  - destruct en, ctx, hidden, audioOk; reflexivity.
Qed.

Lemma ticks_disabled conditions s :
  soundEnabled (sound s) = false ->
  ticks conditions s = s.
Proof.
  revert s. induction conditions as [|c conditions IH]; intros s Hs; [reflexivity|].
  change (ticks (c :: conditions) s) with (ticks conditions (tick_sound c.1 c.2 s)).
  assert (Hsame : tick_sound c.1 c.2 s = s).
  { unfold tick_sound, playTick. rewrite Hs. destruct s as [on st].
    cbn. destruct on; reflexivity. }
  rewrite Hsame. apply IH, Hs.
Qed.

(** X19. A stored [soundOn] does not bring the sound back: after a
    reload no tick is played, whatever the stored value, since nothing
    calls [toggleSound] at start-up; and when the stored value is true
    the first click on the button turns the setting off, after which
    the clock is silent still. *)
Theorem restored_sound_is_silent storedSoundOn conditions :
  ticks conditions (restored storedSoundOn) = restored storedSoundOn
  /\ played (sound (ticks conditions (restored storedSoundOn))) = 0
  /\ (storedSoundOn = true ->
      forall buttonOk contextOk later,
        let s := handleSoundToggle buttonOk contextOk
                   (ticks conditions (restored true)) in
        soundOn s = false
        /\ initCalls (sound s) = 0
        /\ played (sound (ticks later s)) = 0).
Proof.
  assert (Hsilent : forall b, ticks conditions (restored b) = restored b)
    by (intros b; apply ticks_disabled; reflexivity).
  split; [apply Hsilent|]. split; [rewrite Hsilent; reflexivity|].
  intros _ buttonOk contextOk later. cbv zeta. rewrite Hsilent.
  destruct buttonOk; (split; [reflexivity|]); (split; [reflexivity|]);
    rewrite ticks_disabled; reflexivity.
Qed.

(** X29. A click whose button update throws flips the setting and
    nothing else: [toggleSound] is not called, so [soundOn] and
    [soundEnabled], equal before, differ after; a click whose update
    goes through keeps them equal. *)
Theorem sound_setting_can_drift contextOk s :
  soundOn s = soundEnabled (sound s) ->
  (let s' := handleSoundToggle false contextOk s in
   sound s' = sound s /\ soundOn s' = negb (soundEnabled (sound s')))
  /\ (let s' := handleSoundToggle true contextOk s in
      soundOn s' = soundEnabled (sound s')).
Proof.
  intros Heq. unfold handleSoundToggle. cbn. split.
  - split; [reflexivity|]. rewrite Heq. reflexivity.
  - unfold toggleSound, initSound_begin. cbn.
    destruct (negb (soundOn s) && negb (userHasInteracted (sound s)));
      [destruct contextOk|]; reflexivity.
Qed.

End SoundFacts.

Lemma failed_load_is_final_witness :
  Sound.played
    (Sound.run [Sound.Toggle false true; Sound.Toggle true true; Sound.Tick false true]
       (Sound.run [Sound.Toggle true true; Sound.Settled false] Sound.initial))
  = 0.
Proof.
  apply (failed_load_is_final
           [Sound.Toggle false true; Sound.Toggle true true; Sound.Tick false true]
           (Sound.run [Sound.Toggle true true; Sound.Settled false] Sound.initial));
    reflexivity.
Defined.

Lemma restored_sound_is_silent_witness :
  Sound.soundOn
    (Sound.handleSoundToggle true true
       (Sound.ticks [(false, true)] (Sound.restored true))) = false.
Proof.
  apply (proj2 (proj2 (restored_sound_is_silent true [(false, true)]))
           eq_refl true true []).
Defined.

Lemma sound_setting_can_drift_witness :
  Sound.soundOn (Sound.handleSoundToggle false true (Sound.restored false))
  = negb (Sound.soundEnabled
            (Sound.sound (Sound.handleSoundToggle false true (Sound.restored false)))).
Proof.
  apply (proj1 (sound_setting_can_drift true (Sound.restored false) eq_refl)).
Defined.

(** ** The clock driver over many ticks *)

Section TickRuns.
Import Clock Renderer Main.

Variable zones : string -> option (Z -> Z).
Variables (now0 : Z) (local : Z -> Z).

Lemma is_digit_single s : is_digit s = true -> String.length s = 1.
Proof. destruct s as [|c [|d s]]; try discriminate. reflexivity. Qed.

Lemma six_digits_single_chars tp : six_digits tp -> single_chars tp.
Proof.
  intros (H1 & H2 & H3 & H4 & H5 & H6) key.
  destruct key; cbn; apply is_digit_single; assumption.
Qed.

(** One tick of the running interval over the en-US engine. *)
Lemma tick_renders t app id :
  clockInterval app = Some id ->
  exists wall,
    let tp := digits_of_parts (enUS_parts (is12h (options app)) wall) in
    getTimeParts (enUS zones now0 local) (Some t) (options app) = Normal tp
    /\ renderer (tick (enUS zones now0 local) t app) = render_at t tp (renderer app)
    /\ options (tick (enUS zones now0 local) t app) = options app
    /\ clockInterval (tick (enUS zones now0 local) t app) = Some id.
Proof.
  intros Hi.
  destruct (getTimeParts_enUS_cases zones now0 local (Some t) (options app)) as [wall Hw].
  exists wall. cbv zeta. split; [exact Hw|].
  unfold tick, interval_tick. rewrite Hi.
  unfold updateClock, and_then, gets, lift, modify, ret. rewrite Hw. cbn.
  destruct (to_boolean _); cbn; auto.
Qed.

Lemma tick_all_invariant instants app id :
  clockInterval app = Some id ->
  in_sync (renderer app) -> all_mounted (renderer app) ->
  clockInterval (tick_all (enUS zones now0 local) instants app) = Some id
  /\ options (tick_all (enUS zones now0 local) instants app) = options app
  /\ in_sync (renderer (tick_all (enUS zones now0 local) instants app))
  /\ all_mounted (renderer (tick_all (enUS zones now0 local) instants app)).
Proof.
  revert app. induction instants as [|t instants IH]; intros app Hi Hs Hm; [auto|].
  change (tick_all (enUS zones now0 local) (t :: instants) app)
    with (tick_all (enUS zones now0 local) instants (tick (enUS zones now0 local) t app)).
  destruct (tick_renders t app id Hi) as (wall & _ & Hr & Ho & Hi').
  destruct (render_at_in_sync t
              (digits_of_parts (enUS_parts (is12h (options app)) wall)) (renderer app))
    as [Hs' Hm']; [apply six_digits_single_chars, enUS_six_digits|exact Hs|].
  destruct (Hm' Hm) as [Hm'' _]. rewrite <- Hr in Hs', Hm''.
  destruct (IH _ Hi' Hs' Hm'') as (? & Ho' & ? & ?).
  rewrite Ho' , Ho. auto.
Qed.

(** X20. From a page whose six digit elements read the saved string,
    after any run of interval ticks the page reads the digits
    [getTimeParts] gives for the instant of the last tick, in the zone
    and the hour cycle set, and the interval is still registered. *)
Theorem ticks_show_latest instants last app id :
  clockInterval app = Some id ->
  in_sync (renderer app) -> all_mounted (renderer app) ->
  let app' := tick_all (enUS zones now0 local) (instants ++ [last]) app in
  exists tp,
    getTimeParts (enUS zones now0 local) (Some last) (options app) = Normal tp
    /\ shown (renderer app') = currentTime tp
    /\ previousTime (renderer app') = currentTime tp
    /\ clockInterval app' = Some id.
Proof.
  intros Hi Hs Hm app'.
  destruct (tick_all_invariant instants app id Hi Hs Hm) as (Hi1 & Ho1 & Hs1 & Hm1).
  assert (Happ : app' = tick (enUS zones now0 local) last (tick_all (enUS zones now0 local) instants app))
    by (unfold app', tick_all; rewrite fold_left_app; reflexivity).
  destruct (tick_renders last (tick_all (enUS zones now0 local) instants app) id Hi1) as (wall & Hg & Hr & _ & Hi2).
  cbv zeta in Hg. rewrite Ho1 in Hg, Hr.
  eexists. split; [exact Hg|]. rewrite Happ, Hr.
  split; [|split; [reflexivity|exact Hi2]].
  apply render_at_in_sync;
    [apply six_digits_single_chars, enUS_six_digits|exact Hs1|exact Hm1].
Qed.

(** X21. After a tick the AM/PM indicator, when the page has one,
    carries [show] exactly in 12-hour mode, and then reads "AM" or
    "PM". *)
Theorem indicator_follows_mode t app id old :
  clockInterval app = Some id ->
  ampmElement (renderer app) = Some old ->
  exists el,
    ampmElement (renderer (tick (enUS zones now0 local) t app)) = Some el
    /\ (show ∈ classList el <-> is12h (options app) = true)
    /\ (is12h (options app) = true -> textContent el = "AM" \/ textContent el = "PM")
    /\ (is12h (options app) = false -> textContent el = textContent old).
Proof.
  intros Hi Hold.
  destruct (tick_renders t app id Hi) as (wall & _ & Hr & _ & _). rewrite Hr.
  unfold render_at. rewrite render_ampmElement. unfold render_ampm.
  rewrite run_timeouts_ampm, Hold. cbn [ampmElement].
  destruct (enUS_pairs (is12h (options app)) wall) as (_ & _ & _ & ->).
  unfold shown_label. destruct (is12h (options app)).
  - destruct (HourFromTime wall <? 12)%Z; eexists; (split; [reflexivity|]); cbn;
      rewrite elem_of_union, elem_of_singleton; intuition (auto; discriminate).
  - eexists. split; [reflexivity|]. cbn. rewrite elem_of_difference, elem_of_singleton.
    intuition (auto; discriminate).
Qed.

End TickRuns.

Lemma ticks_show_latest_witness :
  exists tp,
    Clock.getTimeParts (Clock.enUS Clock.utc_only 0 (fun _ => 0%Z)) (Some 47109000%Z)
      (Main.options Main.running) = Normal tp
    /\ Renderer.shown
         (Main.renderer
            (Main.tick_all (Clock.enUS Clock.utc_only 0 (fun _ => 0%Z))
               ([0%Z; 1000%Z] ++ [47109000%Z])
               Main.running))
       = Renderer.currentTime tp.
Proof.
  destruct (ticks_show_latest Clock.utc_only 0 (fun _ => 0%Z) [0%Z; 1000%Z] 47109000%Z
              Main.running 1) as (tp & Hg & Hshown & _).
  - reflexivity.
  - intros key el. destruct key; vm_compute; intros [= <-]; reflexivity.
  - intros key. destruct key; vm_compute; eauto.
  - exists tp. split; [exact Hg|exact Hshown].
Defined.

Lemma indicator_follows_mode_witness :
  exists el,
    Renderer.ampmElement
      (Main.renderer (Main.tick (Clock.enUS Clock.utc_only 0 (fun _ => 0%Z)) 47109000
                        Main.running)) = Some el
    /\ Renderer.textContent el = Renderer.textContent Renderer.blank.
Proof.
  destruct (indicator_follows_mode Clock.utc_only 0 (fun _ => 0%Z) 47109000%Z
              Main.running 1 Renderer.blank eq_refl eq_refl) as (el & Hel & _ & _ & Htext).
  exists el. split; [exact Hel|]. apply Htext. reflexivity.
Defined.

(** ** The handlers of [main.js] *)

Section Handlers.
Import Clock Renderer Main.

(** [updateClock] changes the renderer and the count of ticks, nothing
    else, whether or not it throws. *)
Lemma updateClock_frame format now app :
  currentSettings (updateClock format now app).2 = currentSettings app
  /\ zone (updateClock format now app).2 = zone app
  /\ clockInterval (updateClock format now app).2 = clockInterval app.
Proof.
  unfold updateClock, and_then, gets, lift, modify, ret.
  destruct (format (Some now) (options app)); cbn; [|auto].
  destruct (to_boolean _); cbn; auto.
Qed.

(** X22. Picking a zone stores its identifier as the [timezone] setting
    whether or not the engine accepts it, while the current timezone
    follows only when it does: after picking a rejected identifier the
    setting names a zone the clock does not use. *)
Theorem selectTimezone_setting_and_zone construct format timezoneId now app :
  let app' := (selectTimezone construct format timezoneId now app).2 in
  currentSettings app' !! "timezone" = Some (Settings.JString timezoneId)
  /\ (Timezone.accepts construct timezoneId = true ->
      Timezone.getCurrentTimezone (zone app') = timezoneId)
  /\ (Timezone.accepts construct timezoneId = false ->
      Timezone.getCurrentTimezone (zone app') = Timezone.getCurrentTimezone (zone app)).
Proof.
  intros app'.
  set (picked :=
    mkApp (currentSettings app) (clockInterval app) (renderer app)
          (Timezone.setTimezone construct timezoneId (zone app)) (tickCalls app)).
  set (reset :=
    set_renderer (resetState (renderer (set_timezone_setting timezoneId picked)))
                 (set_timezone_setting timezoneId picked)).
  assert (Happ : app' = (updateClock format now reset).2) by reflexivity.
  destruct (updateClock_frame format now reset) as (Hs & Hz & _).
  rewrite Happ, Hs, Hz. cbn.
  split; [apply lookup_insert_eq|].
  unfold Timezone.accepts, Timezone.setTimezone.
  destruct (construct timezoneId); split; intros; try discriminate; reflexivity.
Qed.

Lemma options_after_toggle app :
  let toggled :=
    mkApp (<["is12h" := Settings.JBool (negb (to_boolean (currentSettings app !! "is12h")))]>
             (currentSettings app))
          (clockInterval app) (renderer app) (zone app) (tickCalls app) in
  options toggled = mkOptions (timezone (options app)) (negb (is12h (options app))).
Proof.
  unfold options. cbn. rewrite lookup_insert_eq. reflexivity.
Qed.

(** X23. The format button switches the hour cycle and renders at once:
    after [handleTimeFormatToggle] the setting is the other cycle, and
    when the button update goes through a page that read the saved
    string reads the digits [getTimeParts] gives for that instant in
    the new cycle.  When the button update throws, the setting is
    switched all the same and the page is not rendered. *)
Theorem format_toggle_rerenders zones now0 local buttonOk now app :
  in_sync (renderer app) -> all_mounted (renderer app) ->
  let rt := enUS zones now0 local in
  let app' := (handleTimeFormatToggle (getTimeParts rt) buttonOk now app).2 in
  is12h (options app') = negb (is12h (options app))
  /\ timezone (options app') = timezone (options app)
  /\ (buttonOk = true ->
      exists tp,
        getTimeParts rt (Some now) (options app') = Normal tp
        /\ shown (renderer app') = currentTime tp)
  /\ (buttonOk = false -> renderer app' = renderer app).
Proof.
  intros Hs Hm rt app'.
  set (toggled :=
    mkApp (<["is12h" := Settings.JBool (negb (to_boolean (currentSettings app !! "is12h")))]>
             (currentSettings app))
          (clockInterval app) (renderer app) (zone app) (tickCalls app)).
  assert (Ho : options toggled
               = mkOptions (timezone (options app)) (negb (is12h (options app))))
    by apply options_after_toggle.
  destruct buttonOk.
  - destruct (getTimeParts_enUS_cases zones now0 local (Some now) (options toggled))
      as [wall Hw]. fold rt in Hw.
    assert (Happ : app' = (updateClock (getTimeParts rt) now toggled).2) by reflexivity.
    assert (Hopts : options app' = options toggled).
    { rewrite Happ.
      destruct (updateClock_frame (getTimeParts rt) now toggled) as (H1 & H2 & _).
      unfold options. rewrite H1, H2. reflexivity. }
    assert (Hrend : renderer app'
                    = render_at now
                        (digits_of_parts (enUS_parts (is12h (options toggled)) wall))
                        (renderer toggled)).
    { rewrite Happ. unfold updateClock, and_then, gets, lift, modify, ret.
      rewrite Hw. cbn. destruct (to_boolean (_ !! "soundOn")); reflexivity. }
    rewrite Hopts, Ho. cbn [is12h timezone].
    split; [reflexivity|]. split; [reflexivity|]. split; [|discriminate].
    intros _. rewrite <- Ho. eexists. split; [exact Hw|]. rewrite Hrend.
    apply render_at_in_sync;
      [apply six_digits_single_chars, enUS_six_digits|exact Hs|exact Hm].
  - assert (Happ : app' = toggled) by reflexivity.
    rewrite Happ, Ho. cbn [is12h timezone].
    split; [reflexivity|]. split; [reflexivity|]. split; [discriminate|].
    reflexivity.
Qed.

End Handlers.

Section SettingsCompose.
Import Settings.

Lemma saveSettings_errors c partial s :
  read_error (saveSettings c partial s) = read_error s
  /\ write_error (saveSettings c partial s) = write_error s.
Proof.
  unfold saveSettings, saveSettings_try, storage_setItem.
  destruct (write_error s) eqn:Hw; cbn; rewrite ?Hw; split; reflexivity.
Qed.

(** X24. Saves accumulate: on storage that can be read and written, with
    the JSON text of each merged object parsing back to it, loading
    after saving [first] and then [second] answers [second] spread over
    [first] spread over what was loaded before, a later value winning
    over an earlier one of the same name. *)
Theorem saves_compose c first second s :
  read_error s = None -> write_error s = None ->
  let one := first ∪ loadSettings (runtime_on c s) in
  let two := second ∪ one in
  stringify c (JObject one) <> "" ->
  parse c (stringify c (JObject one)) = Normal (JObject one) ->
  stringify c (JObject two) <> "" ->
  parse c (stringify c (JObject two)) = Normal (JObject two) ->
  loadSettings (runtime_on c (saveSettings c second (saveSettings c first s))) = two.
Proof.
  intros Hr Hw one two Hne1 Hp1 Hne2 Hp2.
  assert (H1 : loadSettings (runtime_on c (saveSettings c first s)) = one)
    by (apply load_after_save_eq; assumption).
  destruct (saveSettings_errors c first s) as [Hr' Hw'].
  rewrite load_after_save_eq; rewrite ?H1, ?Hr', ?Hw'; auto.
Qed.

End SettingsCompose.

Lemma selectTimezone_setting_and_zone_witness :
  let app' := (Main.selectTimezone (Timezone.construct_of Clock.utc_only) Main.stuck
                 "Mars/Phobos" 0 Main.running).2 in
  Main.currentSettings app' !! "timezone" = Some (Settings.JString "Mars/Phobos")
  /\ Timezone.getCurrentTimezone (Main.zone app') = "UTC".
Proof.
  intros app'.
  destruct (selectTimezone_setting_and_zone (Timezone.construct_of Clock.utc_only)
              Main.stuck "Mars/Phobos" 0 Main.running) as (Hset & _ & Hrej).
  split; [exact Hset|]. apply Hrej. reflexivity.
Defined.

Lemma format_toggle_rerenders_witness :
  Clock.is12h
    (Main.options
       (Main.handleTimeFormatToggle
          (Clock.getTimeParts (Clock.enUS Clock.utc_only 0 (fun _ => 0%Z)))
          true 47109000 Main.running).2)
  = true.
Proof.
  refine (proj1 (format_toggle_rerenders Clock.utc_only 0 (fun _ => 0%Z) true
                   47109000%Z Main.running _ _)).
  - intros key el. destruct key; vm_compute; intros [= <-]; reflexivity.
  - intros key. destruct key; vm_compute; eauto.
Defined.

Lemma saves_compose_witness :
  let s := Settings.mkStorage ∅ None None in
  Settings.loadSettings
    (Settings.runtime_on Settings.theme_codec
       (Settings.saveSettings Settings.theme_codec {[ "theme" := Settings.JString "light" ]}
          (Settings.saveSettings Settings.theme_codec
             {[ "theme" := Settings.JString "neon" ]} s)))
  !! "theme" = Some (Settings.JString "light").
Proof.
  intros s.
  rewrite (saves_compose Settings.theme_codec {[ "theme" := Settings.JString "neon" ]}
             {[ "theme" := Settings.JString "light" ]} s).
  - reflexivity.
  - reflexivity.
  - reflexivity.
  - intros H. vm_compute in H. discriminate H.
  - vm_compute. reflexivity.
  - intros H. vm_compute in H. discriminate H.
  - vm_compute. reflexivity.
Defined.

(** ** The service worker *)

Section ServiceWorkerFacts.
Import ServiceWorker.

Lemma activate_lookup (storage : CacheStorage) (name : string) :
  activate storage !! name = if is_old_cache name then None else storage !! name.
Proof.
  unfold activate. apply option_eq. intros cache.
  rewrite map_lookup_filter_Some. cbn.
  destruct (is_old_cache name); split; try tauto; try discriminate.
  intros [_ H]. discriminate.
Qed.

(** X25. Activation deletes the caches whose name starts with
    'flip-clock-' other than the current one, and only those: the
    current cache and the caches of other names keep their content,
    and the font cache, whose name starts that way too, is deleted. *)
Theorem activate_deletes_old_caches (storage : CacheStorage) :
  (forall name, activate storage !! name
                = if is_old_cache name then None else storage !! name)
  /\ activate storage !! CACHE_NAME = storage !! CACHE_NAME
  /\ activate storage !! FONT_CACHE = None
  /\ (forall name, String.prefix "flip-clock-" name = false ->
                   activate storage !! name = storage !! name).
Proof.
  split; [apply activate_lookup|]. split; [|split].
  - rewrite activate_lookup. reflexivity.
  - rewrite activate_lookup. reflexivity.
  - intros name Hp. rewrite activate_lookup. unfold is_old_cache. rewrite Hp. reflexivity.
Qed.

Lemma open_again (name : string) (storage : CacheStorage) :
  open_cache name (open_cache name storage).2 = open_cache name storage.
Proof.
  unfold open_cache. cbn. rewrite lookup_insert_eq. cbn. rewrite insert_insert_eq. reflexivity.
Qed.

Lemma put_then_open (name : string) (request : Request) (response : Response)
    (storage : CacheStorage) :
  (open_cache name (put name request response storage)).1 !! key (url request) = Some response.
Proof.
  unfold open_cache, put. cbn. rewrite lookup_insert_eq. cbn. apply lookup_insert_eq.
Qed.

(** X26. A navigation is always answered: with the network's response
    when there is one, and offline with the cached '/index.html', else
    the cached '/', else the offline page, with status 200; the handler
    stores no response. *)
Theorem navigation_always_answers (origin offline : string)
    (network : option Response) (request : Request) (storage : CacheStorage) :
  route request = Navigation ->
  exists response,
    on_fetch origin offline network request storage
    = Some (Normal response,
            match network with
            | Some _ => storage
            | None => (open_cache CACHE_NAME storage).2
            end)
    /\ (forall r, network = Some r -> response = r)
    /\ (network = None ->
        let cache := default ∅ (storage !! CACHE_NAME) in
        response
        = match cache !! key (mkURL origin "/index.html" "") with
          | Some page => page
          | None =>
              match cache !! key (mkURL origin "/" "") with
              | Some page => page
              | None => mkResponse 200 offline
              end
          end).
Proof.
  intros Hroute. unfold on_fetch. rewrite Hroute. unfold navigationHandler.
  destruct network as [r|].
  - exists r. split; [reflexivity|]. split; [congruence|discriminate].
  - cbn [open_cache]. cbv zeta.
    destruct (default ∅ (storage !! CACHE_NAME) !! key (mkURL origin "/index.html" ""))
      as [page|] eqn:Hindex;
      [|destruct (default ∅ (storage !! CACHE_NAME) !! key (mkURL origin "/" ""))
          as [page|] eqn:Hroot];
      eexists; (split; [reflexivity|]); (split; [discriminate|]); intros _;
      rewrite ?Hindex, ?Hroot; reflexivity.
Qed.

(** X27. Cache first: a cached response is answered without the network
    having a say.  On a miss the network's response is answered and,
    when its status is 200, stored, so that the same request is
    answered with it from then on, offline too; a response of another
    status is not stored, and a miss offline rejects. *)
Theorem cacheFirst_behaviour (network : option Response) (request : Request)
    (storage : CacheStorage) :
  let cache := default ∅ (storage !! CACHE_NAME) in
  (forall cached, cache !! key (url request) = Some cached ->
     (cacheFirst network request storage).1 = Normal cached)
  /\ (cache !! key (url request) = None ->
      (network = None ->
         (cacheFirst network request storage).1 = Throw TypeError)
      /\ (forall r, network = Some r ->
            (cacheFirst network request storage).1 = Normal r
            /\ (status r = 200%Z ->
                forall later,
                  (cacheFirst later request (cacheFirst network request storage).2).1
                  = Normal r)
            /\ (status r <> 200%Z ->
                (cacheFirst None request (cacheFirst network request storage).2).1
                = Throw TypeError))).
Proof.
  intros cache. split.
  - intros cached Hc. unfold cacheFirst, open_cache. cbv zeta. fold cache. rewrite Hc.
    reflexivity.
  - intros Hmiss. split.
    + intros ->. unfold cacheFirst, open_cache. cbv zeta. fold cache. rewrite Hmiss.
      reflexivity.
    + intros r ->.
      assert (Hfirst : cacheFirst (Some r) request storage
                = (Normal r, if (status r =? 200)%Z
                             then put CACHE_NAME request r (open_cache CACHE_NAME storage).2
                             else (open_cache CACHE_NAME storage).2)).
      { unfold cacheFirst, open_cache. cbv zeta. fold cache. rewrite Hmiss. reflexivity. }
      rewrite Hfirst. cbn [fst snd]. split; [reflexivity|]. split.
      * intros H200 later. rewrite H200. cbn [Z.eqb Pos.eqb].
        unfold cacheFirst.
        destruct (open_cache CACHE_NAME (put CACHE_NAME request r (open_cache CACHE_NAME storage).2))
          as [c2 s2] eqn:Hopen.
        assert (Hc2 : c2 !! key (url request) = Some r).
        { change c2 with (c2, s2).1. rewrite <- Hopen. apply put_then_open. }
        rewrite Hc2. reflexivity.
      * intros Hne. destruct (Z.eqb_spec (status r) 200) as [Heq|_]; [contradiction|].
        unfold cacheFirst. rewrite open_again. unfold open_cache. cbv zeta. fold cache.
        rewrite Hmiss. reflexivity.
Qed.

(** X28. Stale while revalidate: a cached response is answered whatever
    the network does, a miss is answered by the network and rejects
    offline; and in either case a network response of status 200 is
    stored, so that the next answer to the same request is that
    response. *)
Theorem staleWhileRevalidate_behaviour (network : option Response)
    (request : Request) (cacheName : string) (storage : CacheStorage) :
  let cache := default ∅ (storage !! cacheName) in
  let outcome := staleWhileRevalidate network request cacheName storage in
  (forall cached, cache !! key (url request) = Some cached ->
     outcome.1 = Normal cached)
  /\ (cache !! key (url request) = None ->
      outcome.1 = match network with
                  | Some r => Normal r
                  | None => Throw TypeError
                  end)
  /\ (forall r, network = Some r -> status r = 200%Z ->
      forall later,
        (staleWhileRevalidate later request cacheName outcome.2).1 = Normal r).
Proof.
  intros cache outcome. unfold outcome, staleWhileRevalidate.
  split; [|split].
  - intros cached Hc. unfold open_cache. cbv zeta. fold cache. rewrite Hc. reflexivity.
  - intros Hmiss. unfold open_cache. cbv zeta. fold cache. rewrite Hmiss.
    destruct network; reflexivity.
  - intros r -> H200 later. rewrite H200. cbn [Z.eqb Pos.eqb].
    set (stored := put cacheName request r (open_cache cacheName storage).2).
    assert (Hsnd : (let '(cache, storage0) := open_cache cacheName storage in
                    match cache !! key (url request) with
                    | Some cachedResponse => (Normal cachedResponse,
                        put cacheName request r storage0)
                    | None => (Normal r, put cacheName request r storage0)
                    end).2 = stored).
    { unfold stored, open_cache. cbv zeta. cbn [fst snd].
      destruct (default ∅ (storage !! cacheName) !! key (url request)); reflexivity. }
    rewrite Hsnd.
    destruct (open_cache cacheName stored) as [c2 s2] eqn:Hopen.
    assert (Hc2 : c2 !! key (url request) = Some r).
    { change c2 with (c2, s2).1. rewrite <- Hopen. apply put_then_open. }
    rewrite Hc2. reflexivity.
Qed.

End ServiceWorkerFacts.

Lemma activate_deletes_old_caches_witness :
  ServiceWorker.activate
    (<[ServiceWorker.FONT_CACHE := ∅]> (<["other" := ∅]> ∅)) !! "other"
  = Some ∅.
Proof.
  rewrite (proj2 (proj2 (proj2 (activate_deletes_old_caches
             (<[ServiceWorker.FONT_CACHE := ∅]> (<["other" := ∅]> ∅))))) "other" eq_refl).
  reflexivity.
Defined.

Lemma navigation_always_answers_witness :
  exists response,
    ServiceWorker.on_fetch "clock.example" "offline" None
      (ServiceWorker.mkRequest "GET" (ServiceWorker.mkURL "clock.example" "/about" "")
         "navigate") ∅
    = Some (Normal response, (ServiceWorker.open_cache ServiceWorker.CACHE_NAME ∅).2)
    /\ response = ServiceWorker.mkResponse 200 "offline".
Proof.
  destruct (navigation_always_answers "clock.example" "offline" None
              (ServiceWorker.mkRequest "GET"
                 (ServiceWorker.mkURL "clock.example" "/about" "") "navigate")
              ∅ eq_refl) as (response & Hfetch & _ & Hoff).
  exists response. split; [exact Hfetch|]. rewrite (Hoff eq_refl). reflexivity.
Defined.

Lemma cacheFirst_behaviour_witness :
  (ServiceWorker.cacheFirst None (ServiceWorker.get "clock.example" "/index.html")
     (ServiceWorker.cacheFirst (Some (ServiceWorker.mkResponse 200 "page"))
        (ServiceWorker.get "clock.example" "/index.html") ∅).2).1
  = Normal (ServiceWorker.mkResponse 200 "page").
Proof.
  destruct (cacheFirst_behaviour (Some (ServiceWorker.mkResponse 200 "page"))
              (ServiceWorker.get "clock.example" "/index.html") ∅) as [_ Hmiss].
  destruct Hmiss as [_ Hnet]; [vm_compute; reflexivity|].
  destruct (Hnet (ServiceWorker.mkResponse 200 "page") eq_refl) as (_ & Hstored & _).
  apply Hstored. reflexivity.
Defined.

Lemma staleWhileRevalidate_behaviour_witness :
  (ServiceWorker.staleWhileRevalidate None
     (ServiceWorker.get "fonts.gstatic.com" "/font.woff2") ServiceWorker.FONT_CACHE
     (ServiceWorker.staleWhileRevalidate (Some (ServiceWorker.mkResponse 200 "font"))
        (ServiceWorker.get "fonts.gstatic.com" "/font.woff2") ServiceWorker.FONT_CACHE
        ∅).2).1
  = Normal (ServiceWorker.mkResponse 200 "font").
Proof.
  apply (proj2 (proj2 (staleWhileRevalidate_behaviour
                  (Some (ServiceWorker.mkResponse 200 "font"))
                  (ServiceWorker.get "fonts.gstatic.com" "/font.woff2")
                  ServiceWorker.FONT_CACHE ∅))
           (ServiceWorker.mkResponse 200 "font") eq_refl eq_refl None).
Defined.
